(** * quick-nlp: the HRED model and the attention decoder

    A shallow embedding of [quicknlp/models/hred.py] and
    [quicknlp/modules/attention_decoder.py].

    Tensors are modelled by their shape and their row-major contents.  The
    numeric layers the two files call (embedding, recurrent cells, dropout,
    projection, attention, the encoder) are collaborators that live in
    other modules; they are variables of the sections below.  Python
    exceptions are modelled in the [option] monad: [None] is a raised
    error.  Objects that the code mutates ([self], [self.decoder], the
    projection layer) are passed in and returned.  Beam counts, sizes and
    token ids are natural numbers; [pr_force] is a rational number.

    Code of the repository that the two files call and that is not among
    them (the base decoder, [reset], [assert_dims]) is modelled from the
    spec, where a definition says so. *)

From stdpp Require Import base option list strings.
From Stdlib Require Import ZArith QArith Lia.

Local Open Scope nat_scope.

(** ** Tensors *)

Module Tensor.

Record tensor (A : Type) : Type := mk { shape : list nat; data : list A }.
Arguments mk {A} _ _.
Arguments shape {A} _.
Arguments data {A} _.

(** Number of entries of a tensor of a given shape. *)
Definition numel (s : list nat) : nat := foldr Nat.mul 1 s.

Section ops.
Context {A : Type}.
Implicit Types (t : tensor A) (s : list nat).

Definition wf t : Prop := length (data t) = numel (shape t).

(** The [i]-th slice along axis 0 of the contents of a tensor whose
    slices have shape [s]. *)
Definition block s (i : nat) (d : list A) : list A :=
  take (numel s) (drop (i * numel s) d).

(** [t.unsqueeze_(0)] *)
Definition unsqueeze0 t : tensor A := mk (1 :: shape t) (data t).

(** [t.size(0)]; an [IndexError] on a 0-d tensor. *)
Definition size0 t : option nat := head (shape t).

(** [t[i]] for [0 <= i]; an [IndexError] when out of range. *)
Definition index0 (i : nat) t : option (tensor A) :=
  match shape t with
  | [] => None
  | n :: s => if decide (i < n) then Some (mk s (block s i (data t))) else None
  end.

(** [for step in t] and [[*t]]: the slices along axis 0, in order; a 0-d
    tensor cannot be iterated. *)
Definition iter0 t : option (list (tensor A)) :=
  match shape t with
  | [] => None
  | n :: s => Some ((λ i, mk s (block s i (data t))) <$> seq 0 n)
  end.

(** [t[:n]] for [0 <= n]: the slice is clipped to the length of axis 0. *)
Definition slice0 (n : nat) t : option (tensor A) :=
  match shape t with
  | [] => None
  | m :: s => Some (mk (n `min` m :: s) (take ((n `min` m) * numel s) (data t)))
  end.

(** [torch.cat(ts, dim=0)]: every tensor has rank at least 1 and the
    same trailing shape; an empty list is an error. *)
Fixpoint cat0_from (n : nat) s (d : list A) (ts : list (tensor A))
    : option (tensor A) :=
  match ts with
  | [] => Some (mk (n :: s) d)
  | t :: ts' =>
      match shape t with
      | m :: s' =>
          if decide (s' = s) then cat0_from (n + m) s (d ++ data t) ts'
          else None
      | [] => None
      end
  end.

Definition cat0 (ts : list (tensor A)) : option (tensor A) :=
  match ts with
  | [] => None
  | t :: ts' =>
      match shape t with
      | m :: s => cat0_from m s (data t) ts'
      | [] => None
      end
  end.

(** Rows of width [la] and [lb] glued pairwise, [n] rows. *)
Fixpoint glue_rows (la lb n : nat) (da db : list A) : list A :=
  match n with
  | 0 => []
  | S n' => take la da ++ take lb db ++ glue_rows la lb n' (drop la da) (drop lb db)
  end.

(** [torch.cat([a, b], dim=-1)]: equal shapes but for the last axis. *)
Definition cat_last (a b : tensor A) : option (tensor A) :=
  match reverse (shape a), reverse (shape b) with
  | la :: ra, lb :: rb =>
      if decide (ra = rb)
      then Some (mk (reverse ((la + lb) :: ra))
                    (glue_rows la lb (numel ra) (data a) (data b)))
      else None
  | _, _ => None
  end.

(** [k] copies of a list, one after the other. *)
Fixpoint tile (k : nat) (d : list A) : list A :=
  match k with
  | 0 => []
  | S k' => d ++ tile k' d
  end.

(** [t.repeat(1, k, 1)]: the tensor is viewed with rank 3 (axes of size
    1 are added in front of a tensor of lower rank) and tiled [k] times
    along axis 1; a tensor of rank above 3 is an error. *)
Definition repeat_axis1 (k : nat) t : option (tensor A) :=
  let tiled l b d :=
    mk [l; b * k; d]
       (mjoin ((λ i, tile k (block [b; d] i (data t))) <$> seq 0 l)) in
  match shape t with
  | [l; b; d] => Some (tiled l b d)
  | [b; d] => Some (tiled 1 b d)
  | [d] => Some (tiled 1 1 d)
  | [] => Some (tiled 1 1 1)
  | _ => None
  end.

(** Entry [[i, j, c]] of a rank-3 tensor. *)
Definition get3 t (i j c : nat) : option A :=
  match shape t with
  | [l; b; d] =>
      if decide (i < l ∧ j < b ∧ c < d) then data t !! ((i * b + j) * d + c)
      else None
  | _ => None
  end.

(** Shape comparison used by [assert_dims]: [None] stands for any size. *)
Fixpoint dims_agree s (dims : list (option nat)) : bool :=
  match s, dims with
  | [], [] => true
  | n :: s', e :: dims' =>
      match e with
      | Some m => bool_decide (n = m) && dims_agree s' dims'
      | None => dims_agree s' dims'
      end
  | _, _ => false
  end.

(** Modelled from the spec: [assert_dims] of [quicknlp.utils] is not part
    of the two source files.  A tensor arriving with an unexpected rank
    or dimension fails immediately; otherwise the value is returned as
    it is. *)
Definition assert_dims t (dims : list (option nat)) : option (tensor A) :=
  if dims_agree (shape t) dims then Some t else None.
End ops.

End Tensor.
Import Tensor.

(** ** Recurrent state *)

(** One entry of a DecoderState: a single hidden tensor (GRU cells) or a
    (hidden, cell) pair (LSTM cells). *)
Inductive hstate (A : Type) : Type :=
  | HSingle (h : tensor A)
  | HPair (h c : tensor A).
Arguments HSingle {A} _.
Arguments HPair {A} _ _.

(** [pr_force < 1] and the like on Python floats; the values that occur
    are exact rationals. *)
Definition Qltb (x y : Q) : bool :=
  (Qnum x * Zpos (Qden y) <? Qnum y * Zpos (Qden x))%Z.

(** ** The decoder object *)

(** The fields of a decoder instance that the two files read or write.
    [PS] is the private state of the projection layer (its cached
    attention output). *)
Record Decoder (A PS : Type) : Type := mkDecoder {
  hidden : list (hstate A);          (* self.decoder_layer.hidden, self.hidden *)
  dec_pr_force : Q;                  (* self.pr_force *)
  beam_outputs : option (tensor nat);(* self.beam_outputs *)
  keys : option (tensor A);          (* self.projection_layer.keys *)
  attention : PS;                    (* self.projection_layer, private part *)
  random_pos : nat                   (* random numbers drawn so far *)
}.
Arguments mkDecoder {A PS} _ _ _ _ _ _.
Arguments hidden {A PS} _.
Arguments dec_pr_force {A PS} _.
Arguments beam_outputs {A PS} _.
Arguments keys {A PS} _.
Arguments attention {A PS} _.
Arguments random_pos {A PS} _.

Section decoder_setters.
Context {A PS : Type}.
Implicit Types d : Decoder A PS.

Definition set_hidden (h : list (hstate A)) d : Decoder A PS :=
  mkDecoder h (dec_pr_force d) (beam_outputs d) (keys d) (attention d) (random_pos d).
Definition set_dec_pr_force (p : Q) d : Decoder A PS :=
  mkDecoder (hidden d) p (beam_outputs d) (keys d) (attention d) (random_pos d).
Definition set_beam_outputs (b : option (tensor nat)) d : Decoder A PS :=
  mkDecoder (hidden d) (dec_pr_force d) b (keys d) (attention d) (random_pos d).
Definition set_keys (k : option (tensor A)) d : Decoder A PS :=
  mkDecoder (hidden d) (dec_pr_force d) (beam_outputs d) k (attention d) (random_pos d).
Definition set_attention (a : PS) d : Decoder A PS :=
  mkDecoder (hidden d) (dec_pr_force d) (beam_outputs d) (keys d) a (random_pos d).
Definition set_random_pos (n : nat) d : Decoder A PS :=
  mkDecoder (hidden d) (dec_pr_force d) (beam_outputs d) (keys d) (attention d) n.
End decoder_setters.

(** ** attention_decoder.py *)

Module AttentionDecoder.
Section attention_decoder.
Context {A PS : Type}.
Local Abbreviation T := (tensor A).
Local Abbreviation Dec := (Decoder A PS).

(** [self.embedding_layer] *)
Variable embedding_layer : tensor nat → T.
(** [self.projection_layer.get_attention_output] and
    [self.projection_layer.__call__]: both read the stored keys and
    may update the layer's private state. *)
Variable get_attention_output : option T → PS → T → PS * T.
Variable projection_layer : option T → PS → T → PS * T.
(** [self.decoder_layer.layers], [self.decoder_layer.dropouths],
    [self.nlayers], [self.emb_size] *)
Variable layers : list (T → hstate A → T * hstate A).
Variable dropouths : list (T → T).
Variable nlayers : nat.
Variable emb_size : nat.

(** The loop of [_rnn_step] over [enumerate(zip(layers, dropouths))]. *)
Fixpoint rnn_step_loop (ls : list ((T → hstate A → T * hstate A) * (T → T)))
    (layer_index : nat) (output : T) (hidden : list (hstate A))
    (new_hidden : list (hstate A)) (outputs : list T)
    : option (list (hstate A) * list T) :=
  match ls with
  | [] => Some (new_hidden, outputs)
  | (rnn, drop) :: ls' =>
      h ← hidden !! layer_index;
      let '(output, new_h) := rnn output h in
      let new_hidden := new_hidden ++ [new_h] in
      let output :=
        if decide (Z.of_nat layer_index ≠ Z.of_nat nlayers - 1)%Z
        then drop output else output in
      rnn_step_loop ls' (S layer_index) output hidden new_hidden (outputs ++ [output])
  end.

Definition _rnn_step (self : Dec) (output : T) (hidden : list (hstate A))
    : option (Dec * list T) :=
  '(new_hidden, outputs) ← rnn_step_loop (zip layers dropouths) 0 output hidden [] [];
  Some (set_hidden new_hidden self, outputs).

(** The first two statements of the loop body of [_train_forward]: the
    tensor that is fed to the recurrent layers at a step. *)
Definition step_input (bs : nat) (self : Dec) (step : T) : option (Dec * T) :=
  let '(ps, att) := get_attention_output (keys self) (attention self) step in
  let self := set_attention ps self in
  step ← unsqueeze0 <$> cat_last step att;
  step ← assert_dims step [Some 1; Some bs; Some (emb_size * 2)];
  Some (self, step).

(** The body of the loop [for step in emb] of [_train_forward]. *)
Definition train_step (bs : nat) (hidden : list (hstate A))
    (acc : Dec * list T) (step : T) : option (Dec * list T) :=
  let '(self, final_outputs) := acc in
  '(self, step) ← step_input bs self step;
  '(self, outputs) ← _rnn_step self step hidden;
  rnn_out ← last outputs ≫= λ o, assert_dims o [Some 1; Some bs; Some emb_size];
  rnn_out0 ← index0 0 rnn_out;
  let '(ps, logits) := projection_layer (keys self) (attention self) rnn_out0 in
  Some (set_attention ps self, final_outputs ++ [logits]).

Fixpoint train_loop (bs : nat) (hidden : list (hstate A))
    (acc : Dec * list T) (steps : list T) : option (Dec * list T) :=
  match steps with
  | [] => Some acc
  | step :: steps' =>
      acc ← train_step bs hidden acc step;
      train_loop bs hidden acc steps'
  end.

Definition _train_forward (self : Dec) (inputs : tensor nat)
    (hidden : list (hstate A)) (constraints : option T) : option (Dec * T) :=
  match shape inputs with
  | [sl; bs] =>
      let emb := embedding_layer inputs in
      steps ← iter0 emb;
      '(self, final_outputs) ← train_loop bs hidden (self, []) steps;
      outputs ← cat0 final_outputs;
      Some (self, outputs)
  | _ => None
  end.

(** What the steps of a call leave of the decoder: a new state list, one
    entry per layer, and a new private state of the projection layer;
    [state] is the state list the steps were given. *)
Definition stepped (state : list (hstate A)) (self self' : Dec) : Prop :=
  ∃ nh a, self' = set_attention a (set_hidden nh self) ∧
          length nh = length (zip layers dropouths) ∧
          length (zip layers dropouths) ≤ length state.

(** [super()._beam_forward], of the base class in [basic_decoder.py]. *)
Variable super_beam_forward :
  Dec → tensor nat → list (hstate A) → nat → option (Dec * T).

(** The first statement of [_beam_forward]: ensure keys exist for all
    beams. *)
Definition ensure_keys (self : Dec) (num_beams : nat) : option Dec :=
  match keys self with
  | Some k =>
      if decide (0 < num_beams)
      then k' ← repeat_axis1 num_beams k; Some (set_keys (Some k') self)
      else Some self
  | None => Some self
  end.

Definition _beam_forward (self : Dec) (inputs : tensor nat)
    (hidden : list (hstate A)) (num_beams : nat) (constraints : option T)
    : option (Dec * T) :=
  self ← ensure_keys self num_beams;
  super_beam_forward self inputs hidden num_beams.
End attention_decoder.
End AttentionDecoder.

(** ** The base decoder *)

(** [basic_decoder.py], the base class of [AttentionDecoder], is not part
    of the two source files.  This module is what an attention decoder
    inherits from it: it is modelled from the spec, on top of the step
    functions of [attention_decoder.py].  The decoder that [HRED]
    instantiates is the base class itself, see [PlainDecoder] below. *)
Module BaseDecoder.
Section base_decoder.
Context {A PS : Type}.
Local Abbreviation T := (tensor A).
Local Abbreviation Dec := (Decoder A PS).

Variable embedding_layer : tensor nat → T.
Variable get_attention_output : option T → PS → T → PS * T.
Variable projection_layer : option T → PS → T → PS * T.
Variable layers : list (T → hstate A → T * hstate A).
Variable dropouths : list (T → T).
Variable nlayers : nat.
Variable emb_size : nat.
Variable super_beam_forward :
  Dec → tensor nat → list (hstate A) → nat → option (Dec * T).
(** The highest-probability token of every batch item of a logits
    tensor. *)
Variable argmax : T → tensor nat.
(** The numbers drawn from the random generator, in order. *)
Variable random_stream : nat → Q.
(** The [training] flag of the decoder module. *)
Variable training : bool.

Local Abbreviation _train_forward :=
  (AttentionDecoder._train_forward embedding_layer get_attention_output
     projection_layer layers dropouths nlayers emb_size).

(** Modelled from the spec: the choice of the input token of a target step
    in training mode is missing from the source files.  With probability
    [pr_force] the ground-truth token is used, otherwise the model's own
    highest-probability prediction of the previous step; [r] is the
    number drawn for the step.  In generation mode the prediction is
    used. *)
Definition choose_input (pr_force r : Q) (ground_truth prediction : tensor nat)
    : tensor nat :=
  if training && Qltb r pr_force then ground_truth else prediction.

(** Modelled from the spec: one target step of the decoder state machine
    with scheduled sampling, which is missing from the source files.  The
    input token is chosen (the first step has no previous prediction and
    takes the given token), then embedded, fed through the recurrent
    layers and projected by the step function of the source; the
    DecoderState left by the step is the prior state of the next one.
    The step records the token it embedded and the logits it produced. *)
Definition sampled_step (constraints : option T)
    (acc : Dec * option (tensor nat) * list (tensor nat * T))
    (ground_truth : tensor nat)
    : option (Dec * option (tensor nat) * list (tensor nat * T)) :=
  let '(self, previous, trace) := acc in
  let '(self, token) :=
    match previous with
    | None => (self, unsqueeze0 ground_truth)
    | Some prediction =>
        let r := random_stream (random_pos self) in
        (set_random_pos (S (random_pos self)) self,
         choose_input (dec_pr_force self) r (unsqueeze0 ground_truth) prediction)
    end in
  '(self, logits) ← _train_forward self token (hidden self) constraints;
  Some (self, Some (argmax logits), trace ++ [(token, logits)]).

Fixpoint sampled_loop (constraints : option T)
    (acc : Dec * option (tensor nat) * list (tensor nat * T))
    (targets : list (tensor nat))
    : option (Dec * option (tensor nat) * list (tensor nat * T)) :=
  match targets with
  | [] => Some acc
  | ground_truth :: targets' =>
      acc ← sampled_step constraints acc ground_truth;
      sampled_loop constraints acc targets'
  end.

(** Every token of a trace after the first is the prediction made from
    the logits of the step before. *)
Definition chained (trace : list (tensor nat * T)) : Prop :=
  ∀ t token logits token' logits',
    trace !! t = Some (token, logits) →
    trace !! S t = Some (token', logits') →
    token' = argmax logits.

(** What holds between the steps of [sampled_loop] when [pr_force] is
    zero: the remembered prediction is the one made from the last logits
    of the trace. *)
Definition sampling_invariant
    (acc : Dec * option (tensor nat) * list (tensor nat * T)) : Prop :=
  dec_pr_force acc.1.1 = 0%Q ∧
  acc.1.2 = (λ x, argmax x.2) <$> last acc.2 ∧
  chained acc.2.

(** Modelled from the spec: the decoding of a whole target sequence with
    scheduled sampling, from the given initial DecoderState; the output
    is the full logits sequence. *)
Definition sampled_forward (self : Dec) (inputs : tensor nat)
    (hidden : list (hstate A)) (constraints : option T) : option (Dec * T) :=
  targets ← iter0 inputs;
  '(self, _, trace) ←
    sampled_loop constraints (set_hidden hidden self, None, []) targets;
  outputs ← cat0 (trace.*2);
  Some (self, outputs).

(** Modelled from the spec: the dispatch of the decoder's [forward] is
    missing from the source files.  [num_beams = 0] selects the
    teacher-forced mode, [num_beams > 0] the generation mode; one beam is
    greedy decoding, which is the sampled decoding above, and more beams
    are the beam search. *)
Definition forward (self : Dec) (inputs : tensor nat)
    (hidden : list (hstate A)) (num_beams : nat) (constraints : option T)
    : option (Dec * T) :=
  match num_beams with
  | 0 => _train_forward self inputs hidden constraints
  | 1 => sampled_forward self inputs hidden constraints
  | _ =>
      AttentionDecoder._beam_forward super_beam_forward
        self inputs hidden num_beams constraints
  end.

(** Modelled from the spec: the loop of the base class's beam search is
    missing from the source files.  Each of its steps runs the decoder's
    step function on the current tokens of the beams, from the state of
    the beams ([_beam_forward] hands no constraints to the search). *)
Fixpoint beam_steps (self : Dec)
    (steps : list (tensor nat * list (hstate A))) : option Dec :=
  match steps with
  | [] => Some self
  | (tokens, hidden) :: steps' =>
      '(self, _) ← _train_forward self tokens hidden None;
      beam_steps self steps'
  end.
End base_decoder.
End BaseDecoder.

(** ** The plain decoder *)

(** [HRED.__init__] instantiates the class [Decoder] of
    [basic_decoder.py], which is not part of the two source files.  Its
    teacher-forced path is modelled from the spec (section 4.3, steps 2
    to 4).  The collaborators may raise; the embedding and the dropouts
    draw from the random generator: they are given its position, which
    advances by one at every draw. *)
Module PlainDecoder.
Section plain_decoder.
Context {A PS : Type}.
Local Abbreviation T := (tensor A).
Local Abbreviation Dec := (Decoder A PS).

(** [self.embedding_layer], [self.projection_layer],
    [self.decoder_layer.layers], [self.decoder_layer.dropouths],
    [self.nlayers] *)
Variable embedding_layer : nat → tensor nat → option T.
Variable projection_layer : T → option T.
Variable layers : list (T → hstate A → option (T * hstate A)).
Variable dropouths : list (nat → T → option T).
Variable nlayers : nat.
(** The generation mode of the decoder (greedy decoding and beam
    search). *)
Variable generate :
  Dec → tensor nat → list (hstate A) → nat → option T → option (Dec * T).

(** Modelled from the spec: the recurrent step of the base class is
    missing from the source files.  The input is fed through the stacked
    recurrent layers, layer [i] from entry [i] of the state list;
    inter-layer dropout is applied between every layer except after the
    final layer. *)
Fixpoint rnn_layers
    (ls : list ((T → hstate A → option (T * hstate A)) * (nat → T → option T)))
    (layer_index pos : nat) (output : T) (hidden new_hidden : list (hstate A))
    : option (nat * T * list (hstate A)) :=
  match ls with
  | [] => Some (pos, output, new_hidden)
  | (rnn, drop) :: ls' =>
      h ← hidden !! layer_index;
      '(output, new_h) ← rnn output h;
      '(pos, output) ←
        (if decide (S layer_index = nlayers) then Some (pos, output)
         else output ← drop pos output; Some (S pos, output));
      rnn_layers ls' (S layer_index) pos output hidden (new_hidden ++ [new_h])
  end.

(** Modelled from the spec: one pass through the layers from the
    DecoderState held by the decoder, which is updated in place for the
    next step; the result is the output of the final layer. *)
Definition _rnn_step (self : Dec) (x : T) : option (Dec * T) :=
  '(pos, rnn_out, new_hidden) ←
    rnn_layers (zip layers dropouths) 0 (random_pos self) x (hidden self) [];
  Some (set_random_pos pos (set_hidden new_hidden self), rnn_out).

(** Modelled from the spec: the input of the recurrent layers at a step
    is missing from the source files.  It is the embedded token; if a
    ConstraintVector is present, it is concatenated.  The token has the
    leading axis of size 1 that the constraint vector has (dims
    [[1, bs, ed]] in [hred.py]). *)
Definition step_input (constraints : option T) (token : T) : option T :=
  match constraints with
  | Some c => cat_last token c
  | None => Some token
  end.

(** Modelled from the spec: one target step of the teacher-forced path,
    which is missing from the source files.  The ground-truth token of
    the step, embedded, goes through [step_input] and the recurrent
    layers, and the output of the final layer is projected to vocabulary
    logits.  The step records the tensor it fed to the layers and the
    logits it appended to the output sequence. *)
Definition train_step (constraints : option T)
    (acc : Dec * list (T * T)) (step : T) : option (Dec * list (T * T)) :=
  let '(self, trace) := acc in
  x ← step_input constraints (unsqueeze0 step);
  '(self, rnn_out) ← _rnn_step self x;
  logits ← projection_layer rnn_out;
  Some (self, trace ++ [(x, logits)]).

(** The target steps, in order. *)
Fixpoint train_loop (constraints : option T)
    (acc : Dec * list (T * T)) (steps : list T) : option (Dec * list (T * T)) :=
  match steps with
  | [] => Some acc
  | step :: steps' =>
      acc ← train_step constraints acc step;
      train_loop constraints acc steps'
  end.

(** Modelled from the spec: the teacher-forced path of the base class is
    missing from the source files.  The target tokens are embedded, the
    steps run in order from the given initial DecoderState, and the
    output is the full logits sequence.  The token of a step is the
    ground-truth token: [HRED.decoding] asks for 0 beams in training
    mode only when [pr_force >= 1], when the scheduled sampling of the
    spec takes the ground truth at every step. *)
Definition _train_forward (self : Dec) (inputs : tensor nat)
    (hidden : list (hstate A)) (constraints : option T) : option (Dec * T) :=
  emb ← embedding_layer (random_pos self) inputs;
  let self := set_random_pos (S (random_pos self)) (set_hidden hidden self) in
  steps ← iter0 emb;
  '(self, trace) ← train_loop constraints (self, []) steps;
  outputs ← cat0 (trace.*2);
  Some (self, outputs).

(** Modelled from the spec: the dispatch of the decoder's [forward] is
    missing from the source files.  [num_beams = 0] selects the
    teacher-forced mode, [num_beams > 0] the generation mode. *)
Definition forward (self : Dec) (inputs : tensor nat)
    (hidden : list (hstate A)) (num_beams : nat) (constraints : option T)
    : option (Dec * T) :=
  match num_beams with
  | 0 => _train_forward self inputs hidden constraints
  | S _ => generate self inputs hidden num_beams constraints
  end.

(** What a target step leaves in the trace: the tensor fed to the
    recurrent layers is the token of the step, embedded and given a
    leading axis, with the constraint vector [c] concatenated, and the
    logits are the projection of what the layers returned on it. *)
Definition fed_with (c : T) (step : T) (entry : T * T) : Prop :=
  cat_last (unsqueeze0 step) c = Some entry.1 ∧
  ∃ d d' rnn_out,
    _rnn_step d entry.1 = Some (d', rnn_out) ∧
    projection_layer rnn_out = Some entry.2.

(** A state list that a stack of [nlayers] layers accepts: it has an
    entry for every layer, and entry [i] is a state that layer [i]
    accepts ([valid i]). *)
Definition state_ok (valid : nat → hstate A → Prop) (state : list (hstate A))
    : Prop :=
  nlayers ≤ length state ∧ ∀ i h, state !! i = Some h → valid i h.

(** The constraint vector that a decoder built with or without the
    session constraint expects for batch size [bs]: a tensor of dims
    [[1, bs, ed]], or none. *)
Definition constraints_fit (bs ed : nat) (session_constraint : bool)
    (constraints : option T) : Prop :=
  match constraints with
  | Some c => session_constraint = true ∧ shape c = [1; bs; ed]
  | None => session_constraint = false
  end.
End plain_decoder.
End PlainDecoder.

(** ** hred.py *)

Module HRED.

(** The arguments of [HRED.__init__] that the constructor itself uses;
    the sizes and dropout rates are only handed on to the constructors of
    the collaborators. *)
Record Args : Type := mkArgs {
  arg_ntoken : nat;
  arg_share_embedding_layer : bool;
  arg_tie_decoder : bool;
  arg_session_constraint : bool;
  arg_cell_type : string
}.

(** What [decoding] returns as predictions: the logits of the decoder
    ([outputs_dec[:T]]) or the decoder's [beam_outputs] attribute. *)
Inductive predictions (A : Type) : Type :=
  | Logits (t : tensor A)
  | Beams (b : option (tensor nat)).
Arguments Logits {A} _.
Arguments Beams {A} _.

(** The arguments of one call [self.decoder(decoder_inputs, hidden=...,
    num_beams=..., constraints=...)]. *)
Record DecoderCall (A : Type) : Type := mkCall {
  call_inputs : tensor nat;
  call_hidden : list (hstate A);
  call_num_beams : nat;
  call_constraints : option (tensor A)
}.
Arguments mkCall {A} _ _ _ _.
Arguments call_inputs {A} _.
Arguments call_hidden {A} _.
Arguments call_num_beams {A} _.
Arguments call_constraints {A} _.

(** A model instance.  [ES] is the recurrent state held by the encoder. *)
Record t (A PS ES : Type) : Type := mkHRED {
  training : bool;
  cell_type : string;
  nt : nat;
  pr_force : Q;
  share_embedding_layer : bool;
  tie_decoder : bool;
  session_constraint : bool;
  encoder : ES;
  decoder : Decoder A PS
}.
Arguments mkHRED {A PS ES} _ _ _ _ _ _ _ _ _.
Arguments training {A PS ES} _.
Arguments cell_type {A PS ES} _.
Arguments nt {A PS ES} _.
Arguments pr_force {A PS ES} _.
Arguments share_embedding_layer {A PS ES} _.
Arguments tie_decoder {A PS ES} _.
Arguments session_constraint {A PS ES} _.
Arguments encoder {A PS ES} _.
Arguments decoder {A PS ES} _.

(** The call [self.decoder(decoder_inputs, hidden=state, num_beams=nb,
    constraints=constraints)] of a decoder whose [forward] is [f]. *)
Definition apply_call {A D : Type}
    (f : D → tensor nat → list (hstate A) → nat → option (tensor A)
         → option (D * tensor A))
    (d : D) (call : DecoderCall A) : option (D * tensor A) :=
  f d (call_inputs call) (call_hidden call) (call_num_beams call)
    (call_constraints call).

(** The input size for which [__init__] builds the recurrent layers of
    the decoder: [kwargs.get("input_size_decoder", emb_sz[1])], widened by
    [self.encoder.output_size] when the session constraint is enabled. *)
Definition input_size_decoder (kwargs_input_size_decoder : option nat)
    (emb_sz_1 encoder_output_size : nat) (session_constraint : bool) : nat :=
  let input_size_decoder := default emb_sz_1 kwargs_input_size_decoder in
  if session_constraint then input_size_decoder + encoder_output_size
  else input_size_decoder.

Section hred.
Context {A PS ES : Type}.
Local Abbreviation T := (tensor A).
Local Abbreviation Dec := (Decoder A PS).
Local Abbreviation Model := (t A PS ES).

Definition set_encoder (e : ES) (self : Model) : Model :=
  mkHRED (training self) (cell_type self) (nt self) (pr_force self)
    (share_embedding_layer self) (tie_decoder self) (session_constraint self)
    e (decoder self).
Definition set_decoder (d : Dec) (self : Model) : Model :=
  mkHRED (training self) (cell_type self) (nt self) (pr_force self)
    (share_embedding_layer self) (tie_decoder self) (session_constraint self)
    (encoder self) d.
Definition set_pr_force (p : Q) (self : Model) : Model :=
  mkHRED (training self) (cell_type self) (nt self) p
    (share_embedding_layer self) (tie_decoder self) (session_constraint self)
    (encoder self) (decoder self).
Definition set_training (b : bool) (self : Model) : Model :=
  mkHRED b (cell_type self) (nt self) (pr_force self)
    (share_embedding_layer self) (tie_decoder self) (session_constraint self)
    (encoder self) (decoder self).

(** The constructors called by [__init__]: [HREDEncoder(...)], and
    [DropoutEmbeddings], [RNNLayers], [Projection] and [Decoder] together.
    Each may raise. *)
Variable HREDEncoder_new : Args → option ES.
Variable Decoder_new : Args → ES → option Dec.
(** [self.encoder(encoder_inputs)]: the per-utterance outputs and the
    session summary [last_output]. *)
Variable encoder_call : ES → tensor nat → option (ES * (list T * hstate A)).
(** [self.decoder(...)] *)
Variable decoder_call : Dec → DecoderCall A → option (Dec * T).
(** [self.decoder_state_linear] *)
Variable decoder_state_linear : T → T.
(** The initial recurrent states (learned or zero) for a batch size. *)
Variable encoder_init_state : nat → ES.
Variable decoder_init_hidden : nat → list (hstate A).

(** [HRED.__init__]; [nn.Module.__init__] sets [training] to [True]. *)
Definition __init__ (args : Args) : option Model :=
  enc ← HREDEncoder_new args;
  dec ← Decoder_new args enc;
  Some (mkHRED true (arg_cell_type args) (arg_ntoken args) 1
          (arg_share_embedding_layer args) (arg_tie_decoder args)
          (arg_session_constraint args) enc dec).

(** Modelled from the spec: [reset] of the encoder and of the decoder are
    not part of the two source files.  [reset(batch_size)] reinitializes
    all recurrent sub-states (explicit learned or zero initial state). *)
Definition encoder_reset (bs : nat) (e : ES) : ES := encoder_init_state bs.
Definition decoder_reset (bs : nat) (d : Dec) : Dec :=
  set_hidden (decoder_init_hidden bs) d.

Definition reset_encoders (self : Model) (bs : nat) : Model :=
  let self := set_encoder (encoder_reset bs (encoder self)) self in
  set_decoder (decoder_reset bs (decoder self)) self.

(** [last_output] used as a tensor: a tuple is not accepted by the linear
    layer. *)
Definition as_tensor (last_output : hstate A) : option T :=
  match last_output with
  | HSingle x => Some x
  | HPair _ _ => None
  end.

(** [last_output[i]]: an element of the tuple, or a slice of the tensor. *)
Definition item (i : nat) (last_output : hstate A) : option T :=
  match last_output with
  | HPair h c =>
      match i with
      | 0 => Some h
      | 1 => Some c
      | _ => None
      end
  | HSingle x => index0 i x
  end.

(** [state[i] = v] on a Python list: an [IndexError] when out of range. *)
Definition setitem (state : list (hstate A)) (i : nat) (v : hstate A)
    : option (list (hstate A)) :=
  if decide (i < length state) then Some (<[i:=v]> state) else None.

(** [state] is the very list held by the decoder, so the assignment to
    [state[0]] is seen by the decoder as well. *)
Definition map_session_hidden_state_to_decoder_init_state
    (self : Model) (last_output : hstate A)
    : option (Model * (list (hstate A) * option T)) :=
  let state := hidden (decoder self) in
  if decide (cell_type self = "gru") then
    x ← as_tensor last_output;
    state ← setitem state 0 (HSingle (decoder_state_linear x));
    let constraints := if session_constraint self then Some x else None in
    Some (set_decoder (set_hidden state (decoder self)) self, (state, constraints))
  else
    h ← item 0 last_output;
    c ← item 1 last_output;
    state ← setitem state 0 (HPair (decoder_state_linear h) (decoder_state_linear c));
    let constraints := if session_constraint self then Some h else None in
    Some (set_decoder (set_hidden state (decoder self)) self, (state, constraints)).

(** The first half of [decoding]: the model after the assignment to
    [self.decoder.pr_force], and the arguments of the decoder call. *)
Definition decoding_call (self : Model) (decoder_inputs : tensor nat)
    (num_beams : nat) (state : list (hstate A)) (constraints : option T)
    : Model * DecoderCall A :=
  let '(self, nb) :=
    if training self then
      (set_decoder (set_dec_pr_force (pr_force self) (decoder self)) self,
       if Qltb (pr_force self) 1 then 1 else 0)
    else (self, num_beams) in
  (self, mkCall decoder_inputs state nb constraints).

Definition decoding (self : Model) (decoder_inputs : tensor nat)
    (num_beams : nat) (state : list (hstate A)) (constraints : option T)
    : option (Model * (T * predictions A)) :=
  let '(self, call) := decoding_call self decoder_inputs num_beams state constraints in
  '(dec, outputs_dec) ← decoder_call (decoder self) call;
  let self := set_decoder dec self in
  predictions ←
    (if decide (num_beams = 0)
     then n ← size0 decoder_inputs; Logits <$> slice0 n outputs_dec
     else Some (Beams (beam_outputs dec)));
  Some (self, (outputs_dec, predictions)).

(** [forward(self, *inputs, num_beams=0)].  The first statement unpacks
    [inputs] into exactly two tensors, and the second unpacks the size of
    the encoder inputs into exactly three numbers: anything else
    raises. *)
Definition forward (self : Model) (inputs : list (tensor nat)) (num_beams : nat)
    : option (Model * (predictions A * list T)) :=
  match inputs with
  | [encoder_inputs; decoder_inputs] =>
      match shape encoder_inputs with
      | [num_utterances; max_sl; bs] =>
          let self := reset_encoders self bs in
          '(enc, (outputs, last_output)) ← encoder_call (encoder self) encoder_inputs;
          let self := set_encoder enc self in
          '(self, (state, constraints)) ←
            map_session_hidden_state_to_decoder_init_state self last_output;
          '(self, (outputs_dec, predictions)) ←
            decoding self decoder_inputs num_beams state constraints;
          outputs_dec ← iter0 outputs_dec;
          Some (self, (predictions, outputs ++ outputs_dec))
      | _ => None
      end
  | _ => None
  end.

(** Two decoders that answer every call with 0 beams alike. *)
Definition agree_on_zero_beams
    (dc dc' : Dec → DecoderCall A → option (Dec * T)) : Prop :=
  ∀ d call, call_num_beams call = 0 → dc d call = dc' d call.

(** The states a model can be in while the caller leaves [pr_force]
    alone: the caller may run [forward], switch between training and
    evaluation mode, and the encoder and the decoder may hold any state
    (as after a call that raised half-way). *)
Inductive pr_force_untouched (self0 : Model) : Model → Prop :=
  | untouched_start : pr_force_untouched self0 self0
  | untouched_forward self inputs num_beams self' result :
      pr_force_untouched self0 self →
      forward self inputs num_beams = Some (self', result) →
      pr_force_untouched self0 self'
  | untouched_mode self b :
      pr_force_untouched self0 self →
      pr_force_untouched self0 (set_training b self)
  | untouched_state self e d :
      pr_force_untouched self0 self →
      pr_force_untouched self0 (set_encoder e (set_decoder d self)).
End hred.
End HRED.

(** ** A small concrete model

    Integer tensors, embedding size 1, vocabulary size 2, one recurrent
    layer that adds its input to its state.  It is used to run the
    definitions above on concrete inputs. *)

Module Toy.

Definition T := tensor Z.

(** Token [k] is embedded as the vector [[k]]. *)
Definition embedding_layer (inputs : tensor nat) : T :=
  Tensor.mk (shape inputs ++ [1]) (Z.of_nat <$> data inputs).

(** The cached attention output starts as zeros shaped like the query. *)
Definition get_attention_output (keys : option T) (ps : unit) (step : T)
    : unit * T :=
  (ps, Tensor.mk (shape step) ((λ _, 0%Z) <$> data step)).

(** Logits [[v, -v]] for the hidden value [v], with a leading axis of
    size 1. *)
Definition projection_layer (keys : option T) (ps : unit) (x : T) : unit * T :=
  (ps, Tensor.mk (1 :: removelast (shape x) ++ [2])
         (data x ≫= λ v, [v; (- v)%Z])).

Fixpoint pair_sums (l : list Z) : list Z :=
  match l with
  | a :: b :: r => (a + b)%Z :: pair_sums r
  | _ => []
  end.

Definition state_tensor (h : hstate Z) : T :=
  match h with
  | HSingle x => x
  | HPair x _ => x
  end.

(** A recurrent cell for batch size [bs]: the new state of a batch item
    is the sum of its input row and its prior state. *)
Definition cell (bs : nat) (x : T) (h : hstate Z) : T * hstate Z :=
  let out :=
    Tensor.mk [1; bs; 1]
      (zip_with Z.add (pair_sums (data x)) (data (state_tensor h))) in
  (out, HSingle out).

Definition layers (bs : nat) : list (T → hstate Z → T * hstate Z) := [cell bs].
Definition dropouths : list (T → T) := [id].
Definition nlayers : nat := 1.
Definition emb_size : nat := 1.

(** Zero initial state for batch size [bs]. *)
Definition init_hidden (bs : nat) : list (hstate Z) :=
  [HSingle (Tensor.mk [1; bs; 1] (replicate bs 0%Z))].

(** First index of the larger of the two logits of every batch item. *)
Fixpoint argmax_rows (l : list Z) : list nat :=
  match l with
  | a :: b :: r => (if (b <=? a)%Z then 0 else 1) :: argmax_rows r
  | _ => []
  end.

Definition argmax (logits : T) : tensor nat :=
  Tensor.mk (removelast (shape logits)) (argmax_rows (data logits)).

Definition super_beam_forward (self : Decoder Z unit) (inputs : tensor nat)
    (hidden : list (hstate Z)) (num_beams : nat)
    : option (Decoder Z unit * T) := None.

Definition decoder0 (bs : nat) : Decoder Z unit :=
  mkDecoder (init_hidden bs) 1 None None () 0.

Definition _train_forward (bs : nat) :=
  AttentionDecoder._train_forward embedding_layer get_attention_output
    projection_layer (layers bs) dropouths nlayers emb_size.

Definition decoder_forward (bs : nat) (training : bool) (random_stream : nat → Q) :=
  BaseDecoder.forward embedding_layer get_attention_output projection_layer
    (layers bs) dropouths nlayers emb_size super_beam_forward argmax
    random_stream training.

(** Three target steps, one batch item, token 1 at every step. *)
Definition ones : tensor nat := Tensor.mk [3; 1] [1; 1; 1].
(** Four target steps, two batch items. *)
Definition targets42 : tensor nat := Tensor.mk [4; 2] [1; 2; 0; 1; 2; 2; 1; 0].

(** The encoder of the small model keeps no state of its own; the session
    summary of every batch item is the vector [[7]]. *)
Definition HREDEncoder_new (args : HRED.Args) : option unit := Some ().
Definition Decoder_new (args : HRED.Args) (enc : unit)
    : option (Decoder Z unit) := Some (decoder0 0).
Definition encoder_call (e : unit) (encoder_inputs : tensor nat)
    : option (unit * (list T * hstate Z)) :=
  match shape encoder_inputs with
  | [_; _; bs] => Some ((), ([], HSingle (Tensor.mk [1; bs; 1] (replicate bs 7%Z))))
  | _ => None
  end.
Definition decoder_state_linear (x : T) : T := x.
Definition encoder_init_state (bs : nat) : unit := ().

Definition decoder_call (bs : nat) (training : bool) (random_stream : nat → Q)
    : Decoder Z unit → HRED.DecoderCall Z → option (Decoder Z unit * T) :=
  HRED.apply_call (decoder_forward bs training random_stream).

Definition args (cell_type : string) (session_constraint : bool) : HRED.Args :=
  HRED.mkArgs 2 false true session_constraint cell_type.

(** A GRU model with the session constraint enabled, ready for batch
    size [bs]. *)
Definition model (bs : nat) : HRED.t Z unit unit :=
  HRED.mkHRED true "gru" 2 1 false true true () (decoder0 bs).

(** A decoder with two layers of state, and a model that holds it. *)
Definition decoder2 : Decoder Z unit :=
  mkDecoder [HSingle (Tensor.mk [1; 1; 1] [0%Z]); HSingle (Tensor.mk [1; 1; 1] [5%Z])]
    1 None None () 0.
Definition model2 : HRED.t Z unit unit :=
  HRED.mkHRED true "gru" 2 1 false true true () decoder2.

(** The session summary of one conversation. *)
Definition summary : T := Tensor.mk [1; 1; 1] [7%Z].

(** One utterance of one token for one conversation, and the model's
    [forward] with the decoder in the given mode for batch size 1. *)
Definition utterance : tensor nat := Tensor.mk [1; 1; 1] [1].
Definition forward (training : bool) :=
  HRED.forward encoder_call (decoder_call 1 training (λ _, 0%Q))
    decoder_state_linear encoder_init_state init_hidden.
Definition decoding (training : bool) :=
  HRED.decoding (ES:=unit) (decoder_call 1 training (λ _, 0%Q)).

(** A dropout that zeroes its input. *)
Definition zero_out (x : T) : T := Tensor.mk (shape x) ((λ _, 0%Z) <$> data x).

(** A decoder whose [beam_outputs] attribute holds tokens of an earlier
    generation. *)
Definition decoder_with_beams : Decoder Z unit :=
  mkDecoder (init_hidden 1) 1 (Some (Tensor.mk [2; 1] [1; 0])) None () 0.

(** Stored keys: two source positions, two batch items, width 1. *)
Definition keys22 : T := Tensor.mk [2; 2; 1] [1; 2; 3; 4]%Z.

(** The plain decoder of the small model.  Its collaborators never raise
    and draw nothing; with the session constraint, the recurrent layer
    gets the embedding and the constraint of a batch item as a row of
    width 2.  The projection keeps the leading axes of its input. *)
Definition plain_embedding (pos : nat) (inputs : tensor nat) : option T :=
  Some (embedding_layer inputs).
Definition plain_projection (x : T) : option T :=
  Some (Tensor.mk (removelast (shape x) ++ [2]) (data x ≫= λ v, [v; (- v)%Z])).
Definition plain_layers (bs : nat) : list (T → hstate Z → option (T * hstate Z)) :=
  [λ x h, Some (cell bs x h)].
Definition plain_dropouths : list (nat → T → option T) := [λ _ x, Some x].
Definition generate (self : Decoder Z unit) (inputs : tensor nat)
    (hidden : list (hstate Z)) (num_beams : nat) (constraints : option T)
    : option (Decoder Z unit * T) := None.
(** Layer 0 takes rows of width 2 and returns rows of width 1. *)
Definition width (i : nat) : nat :=
  match i with
  | 0 => 2
  | S _ => 1
  end.

Definition plain_forward (bs : nat) :=
  PlainDecoder.forward plain_embedding plain_projection (plain_layers bs)
    plain_dropouths nlayers generate.
Definition plain_call (bs : nat)
    : Decoder Z unit → HRED.DecoderCall Z → option (Decoder Z unit * T) :=
  HRED.apply_call (plain_forward bs).
(** The model's [forward] with the plain decoder for batch size [bs]. *)
Definition forward_plain (bs : nat) :=
  HRED.forward encoder_call (plain_call bs)
    decoder_state_linear encoder_init_state init_hidden.

(** The session summary of two conversations. *)
Definition summary2 : T := Tensor.mk [1; 2; 1] [7; 7]%Z.

End Toy.

(** * Properties *)

(** Inversion of a computation in the [option] monad that returned a
    value: binds are split, pairs are opened. *)
Ltac option_inv :=
  repeat (simplify_option_eq ||
          match goal with
          | H : context [let '(_, _) := ?x in _] |- _ => destruct x
          end).

(** ** Tensors *)

Section tensor_properties.
Context {A : Type}.
Implicit Types (t : tensor A) (s : list nat).

Lemma dims_agree_exact s s' : dims_agree s (Some <$> s') = true ↔ s = s'.
Proof.
  revert s'. induction s as [|n s IH]; intros [|m s']; simpl; try done.
  rewrite andb_true_iff, bool_decide_eq_true, IH.
  split; [intros [-> ->]; done | intros [= -> ->]; done].
Qed.

Lemma assert_dims_exact t s t' :
  assert_dims t (Some <$> s) = Some t' ↔ t' = t ∧ shape t = s.
Proof.
  unfold assert_dims. destruct (dims_agree _ _) eqn:Hd.
  - apply dims_agree_exact in Hd.
    split; [intros [= <-]; done | intros [-> _]; done].
  - split; [done|]. intros [_ Hs]. apply dims_agree_exact in Hs. congruence.
Qed.

Lemma iter0_shape t n s :
  shape t = n :: s →
  ∃ l, iter0 t = Some l ∧ length l = n ∧ Forall (λ x, shape x = s) l.
Proof.
  intros Hs. unfold iter0. rewrite Hs. eexists. split; [done|]. split.
  - by rewrite length_fmap, length_seq.
  - apply Forall_fmap, Forall_forall. done.
Qed.

Lemma cat_last_shape2 (a b : tensor A) bs la lb :
  shape a = [bs; la] → shape b = [bs; lb] →
  ∃ x, cat_last a b = Some x ∧ shape x = [bs; la + lb].
Proof.
  intros Ha Hb. unfold cat_last. rewrite Ha, Hb. cbn.
  case_decide; [|done]. eexists. split; done.
Qed.

Lemma index0_shape t n s :
  shape t = S n :: s → ∃ x, index0 0 t = Some x ∧ shape x = s.
Proof.
  intros Hs. unfold index0. rewrite Hs.
  case_decide; [|lia]. eexists. split; done.
Qed.

Lemma cat0_from_shape (ts : list (tensor A)) n s d :
  Forall (λ x, shape x = 1 :: s) ts →
  ∃ t, cat0_from n s d ts = Some t ∧ shape t = (n + length ts) :: s.
Proof.
  intros Hts. revert n d.
  induction Hts as [|x ts Hx _ IH]; intros n d; simpl.
  - eexists. split; [done|]. simpl. f_equal. lia.
  - rewrite Hx. case_decide; [|done].
    destruct (IH (n + 1) (d ++ data x)) as (t & Ht & Hs).
    exists t. split; [done|]. rewrite Hs. simpl. f_equal. lia.
Qed.

Lemma cat0_shape (ts : list (tensor A)) s :
  ts ≠ [] → Forall (λ x, shape x = 1 :: s) ts →
  ∃ t, cat0 ts = Some t ∧ shape t = length ts :: s.
Proof.
  intros Hne Hts. destruct Hts as [|x ts Hx Hts]; [done|].
  simpl. rewrite Hx. apply cat0_from_shape. done.
Qed.

Lemma slice0_shape t n s :
  shape t = n :: s → ∃ x, slice0 n t = Some x ∧ shape x = n :: s.
Proof.
  intros Hs. unfold slice0. rewrite Hs. eexists. split; [done|].
  simpl. by rewrite Nat.min_id.
Qed.

Lemma tile_length k (d : list A) : length (tile k d) = k * length d.
Proof. induction k; simpl; [done|]. rewrite length_app. lia. Qed.

Lemma tile_lookup k (d : list A) r :
  r < k * length d → tile k d !! r = d !! (r mod length d).
Proof.
  revert r. induction k as [|k IH]; intros r Hr; simpl in *; [lia|].
  destruct (decide (r < length d)) as [Hlt|Hge].
  - rewrite lookup_app_l by done. by rewrite Nat.mod_small.
  - rewrite lookup_app_r by lia. rewrite IH by lia. f_equal.
    replace r with ((r - length d) + 1 * length d) at 2 by lia.
    by rewrite Nat.Div0.mod_add.
Qed.

Lemma block_length s i (d : list A) :
  (i + 1) * numel s ≤ length d → length (block s i d) = numel s.
Proof.
  intros Hd. unfold block. rewrite length_take, length_drop. lia.
Qed.

Lemma block_lookup s i (d : list A) r :
  r < numel s → block s i d !! r = d !! (i * numel s + r).
Proof.
  intros Hr. unfold block. by rewrite lookup_take_lt, lookup_drop.
Qed.

Lemma join_chunks_lookup (f : nat → list A) m l : ∀ a i r,
  (∀ i, i < l → length (f (a + i)) = m) → i < l → r < m →
  mjoin (f <$> seq a l) !! (i * m + r) = f (a + i) !! r.
Proof.
  induction l as [|l IH]; intros a i r Hlen Hi Hr; [lia|]. simpl.
  pose proof (Hlen 0 ltac:(lia)) as H0. rewrite Nat.add_0_r in H0.
  destruct i as [|i].
  - rewrite lookup_app_l by (simpl; lia). by rewrite Nat.add_0_r.
  - rewrite lookup_app_r by (simpl; lia).
    replace (S i * m + r - length (f a)) with (i * m + r) by (simpl; lia).
    rewrite IH; [|intros i' Hi'|lia|done].
    + f_equal. f_equal. lia.
    + replace (S a + i') with (a + S i') by lia. apply Hlen. lia.
Qed.

Lemma join_chunks_length (f : nat → list A) m l : ∀ a,
  (∀ i, i < l → length (f (a + i)) = m) →
  length (mjoin (f <$> seq a l)) = l * m.
Proof.
  induction l as [|l IH]; intros a Hlen; [done|]. simpl.
  rewrite length_app, IH.
  - rewrite <-(Nat.add_0_r a) at 1. rewrite Hlen by lia. lia.
  - intros i Hi. replace (S a + i) with (a + S i) by lia. apply Hlen. lia.
Qed.

Lemma mod_row j b d c :
  c < d → 0 < b → (j * d + c) mod (b * d) = (j mod b) * d + c.
Proof.
  intros Hc Hb.
  assert (j mod b < b) as Hj by (apply Nat.mod_upper_bound; lia).
  pose proof (Nat.div_mod_eq j b) as Hdiv.
  replace (j * d + c) with (((j mod b) * d + c) + (j / b) * (b * d)) by nia.
  rewrite Nat.Div0.mod_add. apply Nat.mod_small. nia.
Qed.

(** The tensor [t.repeat(1, k, 1)] of a rank-3 tensor: batch axis [k]
    times as long, the same number of entries per batch item, and entry
    [[i, j, c]] is entry [[i, j mod b, c]] of [t]. *)
Lemma repeat_axis1_spec t l b d k :
  wf t → shape t = [l; b; d] →
  ∃ t', repeat_axis1 k t = Some t' ∧
        shape t' = [l; b * k; d] ∧ wf t' ∧
        ∀ i j c, i < l → j < b * k → c < d →
                 get3 t' i j c = get3 t i (j mod b) c.
Proof.
  unfold wf. intros Hwf Hs. unfold repeat_axis1. rewrite Hs in *.
  simpl in Hwf. eexists. split; [reflexivity|]. split; [reflexivity|].
  assert (∀ i, i < l → length (tile k (block [b; d] i (data t))) = k * (b * d)) as Hlen.
  { intros i Hi. rewrite tile_length, block_length; simpl; nia. }
  split.
  - simpl.
    rewrite (join_chunks_length _ (k * (b * d)) l 0)
      by (intros i Hi; apply Hlen, Hi).
    lia.
  - intros i j c Hi Hj Hc.
    assert (0 < b) as Hb by nia.
    assert (j mod b < b) as Hjb by (apply Nat.mod_upper_bound; lia).
    unfold get3. rewrite Hs. simpl.
    rewrite !decide_True by done.
    replace ((i * (b * k) + j) * d + c) with (i * (k * (b * d)) + (j * d + c)) by nia.
    rewrite (join_chunks_lookup _ (k * (b * d)) l 0 i (j * d + c)); [|done|done|nia].
    simpl.
    assert (length (block [b; d] i (data t)) = b * d) as Hbl.
    { rewrite block_length; simpl; nia. }
    rewrite tile_lookup by (rewrite Hbl; nia).
    rewrite Hbl, mod_row by done.
    rewrite block_lookup by (simpl; nia).
    f_equal. simpl. nia.
Qed.
End tensor_properties.

(** ** The model: construction, beam count, bridge, reset *)

Section hred_properties.
Context {A PS ES : Type}.
Local Abbreviation T := (tensor A).
Local Abbreviation Dec := (Decoder A PS).
Local Abbreviation Model := (HRED.t A PS ES).

Variable HREDEncoder_new : HRED.Args → option ES.
Variable Decoder_new : HRED.Args → ES → option Dec.
Variable encoder_call : ES → tensor nat → option (ES * (list T * hstate A)).
Variable decoder_call : Dec → HRED.DecoderCall A → option (Dec * T).
Variable decoder_state_linear : T → T.
Variable encoder_init_state : nat → ES.
Variable decoder_init_hidden : nat → list (hstate A).

Local Abbreviation __init__ := (HRED.__init__ HREDEncoder_new Decoder_new).
Local Abbreviation map_session :=
  (HRED.map_session_hidden_state_to_decoder_init_state (ES:=ES) decoder_state_linear).
Local Abbreviation decoding := (HRED.decoding (ES:=ES) decoder_call).
Local Abbreviation forward :=
  (HRED.forward encoder_call decoder_call decoder_state_linear
     encoder_init_state decoder_init_hidden).
Local Abbreviation untouched :=
  (HRED.pr_force_untouched encoder_call decoder_call decoder_state_linear
     encoder_init_state decoder_init_hidden).

(** *** The bridge *)

Lemma setitem_Some (state state' : list (hstate A)) i v :
  HRED.setitem state i v = Some state' → state' = <[i:=v]> state ∧ i < length state.
Proof.
  unfold HRED.setitem. case_decide; [|done]. intros [= <-]. done.
Qed.

Lemma map_session_pr_force (self self' : Model) lo r :
  map_session self lo = Some (self', r) →
  HRED.pr_force self' = HRED.pr_force self ∧
  HRED.training self' = HRED.training self ∧
  HRED.cell_type self' = HRED.cell_type self ∧
  HRED.session_constraint self' = HRED.session_constraint self ∧
  HRED.encoder self' = HRED.encoder self.
Proof.
  unfold HRED.map_session_hidden_state_to_decoder_init_state.
  case_decide; intros; simplify_option_eq; done.
Qed.

Lemma bridge_inv (self self' : Model) last_output state constraints :
  map_session self last_output = Some (self', (state, constraints)) →
  ∃ v x,
    state = <[0:=v]> (hidden (HRED.decoder self)) ∧
    0 < length (hidden (HRED.decoder self)) ∧
    self' = HRED.set_decoder (set_hidden state (HRED.decoder self)) self ∧
    constraints = (if HRED.session_constraint self then Some x else None) ∧
    if decide (HRED.cell_type self = "gru")
    then last_output = HSingle x ∧ v = HSingle (decoder_state_linear x)
    else ∃ c, HRED.item 0 last_output = Some x ∧
              HRED.item 1 last_output = Some c ∧
              v = HPair (decoder_state_linear x) (decoder_state_linear c).
Proof.
  unfold HRED.map_session_hidden_state_to_decoder_init_state. intros H.
  case_decide as Hct.
  - destruct last_output as [x|]; simpl in H; [|done].
    destruct (HRED.setitem _ 0 _) as [st|] eqn:Hset; simpl in H; [|done].
    apply setitem_Some in Hset as [-> Hlen]. injection H as <- <- <-.
    exists (HSingle (decoder_state_linear x)), x. done.
  - destruct (HRED.item 0 last_output) as [h|] eqn:H0; simpl in H; [|done].
    destruct (HRED.item 1 last_output) as [c|] eqn:H1; simpl in H; [|done].
    destruct (HRED.setitem _ 0 _) as [st|] eqn:Hset; simpl in H; [|done].
    apply setitem_Some in Hset as [-> Hlen]. injection H as <- <- <-.
    exists (HPair (decoder_state_linear h) (decoder_state_linear c)), h.
    split; [done|]. split; [done|].
    split; [done|]. split; [done|]. by exists c.
Qed.

(** C7: the state bridge overwrites entry 0 of the decoder's per-layer
    state list and nothing else.  Whatever the session summary
    [last_output] is, the list it returns is the list the decoder holds
    afterwards, it has the length it had, and every entry of a layer
    [i >= 1] is the entry the decoder held before the call; where
    [forward] calls the bridge, after the reset and the encoder, that
    entry is the initial state of the layer. *)
Theorem C7_bridge_writes_only_layer_0 (self self' : Model)
    (last_output : hstate A) (state : list (hstate A)) (constraints : option T) :
  map_session self last_output = Some (self', (state, constraints)) →
  hidden (HRED.decoder self') = state ∧
  length state = length (hidden (HRED.decoder self)) ∧
  (∀ i, 1 ≤ i → state !! i = hidden (HRED.decoder self) !! i) ∧
  (∀ self0 bs enc,
     self = HRED.set_encoder enc
              (HRED.reset_encoders encoder_init_state decoder_init_hidden self0 bs) →
     ∀ i, 1 ≤ i → state !! i = decoder_init_hidden bs !! i).
Proof.
  unfold HRED.map_session_hidden_state_to_decoder_init_state.
  intros Hm.
  assert (∃ v, state = <[0:=v]> (hidden (HRED.decoder self)) ∧
               hidden (HRED.decoder self') = state) as (v & -> & Hd).
  { case_decide; simplify_option_eq;
      match goal with H : HRED.setitem _ _ _ = Some _ |- _ =>
        apply setitem_Some in H as [-> _] end; eauto. }
  assert (∀ i, 1 ≤ i → <[0:=v]> (hidden (HRED.decoder self)) !! i
                       = hidden (HRED.decoder self) !! i) as Hframe.
  { intros i Hi. apply list_lookup_insert_ne. lia. }
  split; [done|]. split; [apply length_insert|]. split; [done|].
  intros self0 bs enc -> i Hi. rewrite Hframe by done. reflexivity.
Qed.

(** *** The beam count of a training-mode call *)

Lemma decoding_call_training (self : Model) di nb st c :
  HRED.training self = true →
  HRED.decoding_call self di nb st c =
    (HRED.set_decoder
       (set_dec_pr_force (HRED.pr_force self) (HRED.decoder self)) self,
     HRED.mkCall di st (if Qltb (HRED.pr_force self) 1 then 1 else 0) c).
Proof.
  intros Ht. unfold HRED.decoding_call. rewrite Ht. reflexivity.
Qed.


Lemma decoding_call_fields (self self' : Model) di nb st c call :
  HRED.decoding_call self di nb st c = (self', call) →
  HRED.pr_force self' = HRED.pr_force self ∧
  HRED.training self' = HRED.training self.
Proof.
  unfold HRED.decoding_call. destruct (HRED.training self) eqn:Ht;
    intros [= <- <-]; simpl; auto.
Qed.

Lemma decoding_fields (self self' : Model) di nb st c r :
  decoding self di nb st c = Some (self', r) →
  HRED.pr_force self' = HRED.pr_force self ∧
  HRED.training self' = HRED.training self.
Proof.
  unfold HRED.decoding.
  destruct (HRED.decoding_call self di nb st c) as [self1 call] eqn:Hc.
  apply decoding_call_fields in Hc as [Hp Ht].
  intros H. option_inv; simpl in *; auto.
Qed.

Lemma forward_fields (self self' : Model) inputs nb r :
  forward self inputs nb = Some (self', r) →
  HRED.pr_force self' = HRED.pr_force self ∧
  HRED.training self' = HRED.training self.
Proof.
  unfold HRED.forward.
  destruct inputs as [|encoder_inputs [|decoder_inputs [|]]]; try done.
  destruct (shape encoder_inputs) as [|? [|? [|bs [|]]]]; try done.
  intros H. option_inv.
  repeat match goal with
  | H : HRED.map_session_hidden_state_to_decoder_init_state _ _ _ = Some _ |- _ =>
      apply map_session_pr_force in H as (? & ? & _)
  | H : HRED.decoding _ _ _ _ _ _ = Some _ |- _ =>
      apply decoding_fields in H as (? & ?)
  end.
  simpl in *. split; congruence.
Qed.

Lemma untouched_pr_force (self0 self : Model) :
  untouched self0 self → HRED.pr_force self = HRED.pr_force self0.
Proof.
  induction 1 as [|self inputs nb self' r _ IH Hf|self b _ IH|self e d _ IH];
    simpl; try done.
  apply forward_fields in Hf as [-> _]. done.
Qed.

Local Abbreviation agree_on_zero_beams := (HRED.agree_on_zero_beams (A:=A) (PS:=PS)).

Lemma decoding_zero_beams dc' (self : Model) di nb st c :
  HRED.training self = true → HRED.pr_force self = 1%Q →
  agree_on_zero_beams decoder_call dc' →
  decoding self di nb st c = HRED.decoding dc' self di nb st c.
Proof.
  intros Ht Hp Hagree. unfold HRED.decoding.
  rewrite decoding_call_training by done. rewrite Hp. simpl.
  rewrite Hagree by done. reflexivity.
Qed.

Lemma forward_zero_beams dc' (self : Model) inputs nb :
  HRED.training self = true → HRED.pr_force self = 1%Q →
  agree_on_zero_beams decoder_call dc' →
  forward self inputs nb =
  HRED.forward encoder_call dc' decoder_state_linear
    encoder_init_state decoder_init_hidden self inputs nb.
Proof.
  intros Ht Hp Hagree. unfold HRED.forward.
  destruct inputs as [|encoder_inputs [|decoder_inputs [|]]]; try reflexivity.
  destruct (shape encoder_inputs) as [|? [|? [|bs [|]]]]; try reflexivity.
  destruct (encoder_call _ _) as [[enc [outputs last_output]]|]; simpl;
    [|reflexivity].
  destruct (map_session _ last_output) as [[self1 [state constraints]]|] eqn:Hm;
    simpl; [|reflexivity].
  apply map_session_pr_force in Hm as (Hp1 & Ht1 & _).
  unfold HRED.reset_encoders in Hp1, Ht1. simpl in Hp1, Ht1.
  rewrite (decoding_zero_beams dc' self1) by (congruence || exact Hagree).
  reflexivity.
Qed.


(** *** Reset *)

Lemma reset_encoders_leftover (self : Model) (e1 e2 : ES)
    (h1 h2 : list (hstate A)) (bs : nat) :
  HRED.reset_encoders encoder_init_state decoder_init_hidden
    (HRED.set_encoder e1 (HRED.set_decoder (set_hidden h1 (HRED.decoder self)) self)) bs =
  HRED.reset_encoders encoder_init_state decoder_init_hidden
    (HRED.set_encoder e2 (HRED.set_decoder (set_hidden h2 (HRED.decoder self)) self)) bs.
Proof. reflexivity. Qed.


End hred_properties.

(** ** The attention decoder *)

(** *** The recurrent state in the teacher-forced loop *)

(** C1 (evaluation of the code): three target steps with the same token,
    zero initial state, and a cell that adds its input to its state.
    Every step is computed from the initial state: the three steps give
    the same logits, and the state left in the decoder is the one a
    single step produces.  A decoder that advanced its state would give
    hidden values 1, 2, 3. *)
Theorem C1_train_forward_reuses_initial_state :
  Toy._train_forward 1 (Toy.decoder0 1) Toy.ones (Toy.init_hidden 1) None =
    Some (set_hidden [HSingle (Tensor.mk [1; 1; 1] [1%Z])] (Toy.decoder0 1),
          Tensor.mk [3; 1; 2] [1; -1; 1; -1; 1; -1]%Z) ∧
  Toy.decoder_forward 1 true (λ _, 0%Q) (Toy.decoder0 1) Toy.ones (Toy.init_hidden 1) 1 None =
    Some (set_random_pos 2 (set_hidden [HSingle (Tensor.mk [1; 1; 1] [3%Z])] (Toy.decoder0 1)),
          Tensor.mk [3; 1; 2] [1; -1; 2; -2; 3; -3]%Z).
Proof. split; vm_compute; reflexivity. Qed.

Section attention_decoder_properties.
Context {A PS : Type}.
Local Abbreviation T := (tensor A).
Local Abbreviation Dec := (Decoder A PS).

Variable embedding_layer : tensor nat → T.
Variable get_attention_output : option T → PS → T → PS * T.
Variable projection_layer : option T → PS → T → PS * T.
Variable layers : list (T → hstate A → T * hstate A).
Variable dropouths : list (T → T).
Variable nlayers : nat.
Variable emb_size : nat.

Local Abbreviation _rnn_step := (AttentionDecoder._rnn_step (PS:=PS) layers dropouths nlayers).
Local Abbreviation step_input :=
  (AttentionDecoder.step_input get_attention_output emb_size).
Local Abbreviation train_step :=
  (AttentionDecoder.train_step get_attention_output projection_layer
     layers dropouths nlayers emb_size).
Local Abbreviation train_loop :=
  (AttentionDecoder.train_loop get_attention_output projection_layer
     layers dropouths nlayers emb_size).
Local Abbreviation _train_forward :=
  (AttentionDecoder._train_forward embedding_layer get_attention_output
     projection_layer layers dropouths nlayers emb_size).

(** The state stored by the previous step is not read by a step: the
    recurrent layers get the [hidden] argument of the call. *)
Lemma train_step_ignores_stored_state bs hidden (self : Dec) h outs step :
  train_step bs hidden (set_hidden h self, outs) step =
  train_step bs hidden (self, outs) step.
Proof.
  unfold AttentionDecoder.train_step, AttentionDecoder.step_input,
    AttentionDecoder._rnn_step. simpl.
  destruct (get_attention_output (keys self) (attention self) step) as [ps att].
  destruct (cat_last step att) as [x|]; simpl; [|done].
  destruct (assert_dims _ _) as [x'|]; simpl; [|done].
  destruct (AttentionDecoder.rnn_step_loop _ _ _ _ _ _ _) as [[nh outputs]|];
    simpl; [|done].
  reflexivity.
Qed.

(** *** The input of a step *)

Lemma step_input_Some bs (self self' : Dec) step x :
  step_input bs self step = Some (self', x) →
  shape x = [1; bs; emb_size * 2] ∧
  keys self' = keys self ∧ dec_pr_force self' = dec_pr_force self ∧
  ∃ att y, att = (get_attention_output (keys self) (attention self) step).2 ∧
           cat_last step att = Some y ∧ x = unsqueeze0 y.
Proof.
  unfold AttentionDecoder.step_input.
  destruct (get_attention_output (keys self) (attention self) step) as [ps att].
  intros H. simpl in *.
  destruct (cat_last step att) as [y|] eqn:Hy; simpl in *; [|done].
  destruct (assert_dims _ _) as [x'|] eqn:Hx; simplify_eq/=.
  apply (assert_dims_exact _ [1; bs; emb_size * 2]) in Hx as [-> Hs].
  repeat split; eauto.
Qed.

(** *** The stored keys *)

Lemma _rnn_step_frame (self self' : Dec) x hidden outs :
  _rnn_step self x hidden = Some (self', outs) →
  keys self' = keys self ∧ dec_pr_force self' = dec_pr_force self.
Proof.
  unfold AttentionDecoder._rnn_step. intros H. option_inv. done.
Qed.

Lemma train_step_frame bs hidden (self self' : Dec) outs outs' step :
  train_step bs hidden (self, outs) step = Some (self', outs') →
  keys self' = keys self ∧ dec_pr_force self' = dec_pr_force self.
Proof.
  unfold AttentionDecoder.train_step. intros H.
  destruct (step_input bs self step) as [[self1 x]|] eqn:H1; simpl in H; [|done].
  apply step_input_Some in H1 as (_ & <- & <- & _).
  destruct (_rnn_step self1 x hidden) as [[self2 outputs]|] eqn:H2; simpl in H; [|done].
  apply _rnn_step_frame in H2 as [<- <-].
  option_inv. done.
Qed.

Lemma train_loop_frame bs hidden steps : ∀ (self self' : Dec) outs outs',
  train_loop bs hidden (self, outs) steps = Some (self', outs') →
  keys self' = keys self ∧ dec_pr_force self' = dec_pr_force self.
Proof.
  induction steps as [|step steps IH]; intros self self' outs outs' H;
    cbn [AttentionDecoder.train_loop] in H.
  - by simplify_eq.
  - destruct (train_step bs hidden (self, outs) step) as [[self1 outs1]|] eqn:H1;
      simpl in H; [|done].
    apply train_step_frame in H1 as [<- <-]. by eapply IH.
Qed.

Lemma _train_forward_frame (self self' : Dec) inputs hidden constraints out :
  _train_forward self inputs hidden constraints = Some (self', out) →
  keys self' = keys self ∧ dec_pr_force self' = dec_pr_force self.
Proof.
  unfold AttentionDecoder._train_forward. intros H.
  destruct (shape inputs) as [|sl [|bs [|]]]; try done.
  destruct (iter0 _) as [steps|]; simpl in H; [|done].
  destruct (train_loop bs hidden (self, []) steps) as [[self1 outs]|] eqn:H1;
    simpl in H; [|done].
  apply train_loop_frame in H1 as [<- <-]. option_inv. done.
Qed.

Section beam_keys.
Variable super_beam_forward :
  Dec → tensor nat → list (hstate A) → nat → option (Dec * T).

Local Abbreviation beam_steps :=
  (BaseDecoder.beam_steps embedding_layer get_attention_output
     projection_layer layers dropouths nlayers emb_size).

Lemma beam_steps_keys steps : ∀ self self' : Dec,
  beam_steps self steps = Some self' → keys self' = keys self.
Proof.
  induction steps as [|[tokens hidden] steps IH]; intros self self' H;
    cbn [BaseDecoder.beam_steps] in H.
  - by simplify_eq.
  - destruct (_train_forward self tokens hidden None) as [[self1 out]|] eqn:H1;
      simpl in H; [|done].
    apply _train_forward_frame in H1 as [<- _]. by apply IH.
Qed.

(** C6: entering the beam search with [K > 0] beams replaces the stored
    keys [k] of shape [[l; b; d]] by [k.repeat(1, K, 1)] once, before the
    search of the base class starts: the batch axis becomes [b * K], and
    batch item [j] of the new keys is a copy of item [j mod b] of [k].
    The decoding steps that follow leave these keys as they are. *)
Theorem C6_keys_replicated_once_on_beam_entry (self : Dec) (k : T)
    (l b d K : nat) (inputs : tensor nat) (hidden : list (hstate A))
    (constraints : option T) :
  keys self = Some k → wf k → shape k = [l; b; d] → 0 < K →
  ∃ k',
    AttentionDecoder.ensure_keys self K = Some (set_keys (Some k') self) ∧
    AttentionDecoder._beam_forward super_beam_forward self inputs hidden K constraints
      = super_beam_forward (set_keys (Some k') self) inputs hidden K ∧
    shape k' = [l; b * K; d] ∧ wf k' ∧
    (∀ i j c, i < l → j < b * K → c < d → get3 k' i j c = get3 k i (j mod b) c) ∧
    (∀ steps self',
       beam_steps (set_keys (Some k') self) steps = Some self' →
       keys self' = Some k').
Proof.
  intros Hk Hwf Hs HK.
  destruct (repeat_axis1_spec k l b d K Hwf Hs) as (k' & Hr & Hs' & Hwf' & Hget).
  exists k'.
  assert (AttentionDecoder.ensure_keys self K = Some (set_keys (Some k') self)) as He.
  { unfold AttentionDecoder.ensure_keys. rewrite Hk.
    rewrite decide_True by done. rewrite Hr. done. }
  split; [done|]. split.
  { unfold AttentionDecoder._beam_forward. rewrite He. done. }
  split; [done|]. split; [done|]. split; [done|].
  intros steps self' Hsteps. by apply beam_steps_keys in Hsteps as ->.
Qed.
End beam_keys.

(** *** The decoder called by the model *)

Section in_model.
Context {ES : Type}.
Variable super_beam_forward :
  Dec → tensor nat → list (hstate A) → nat → option (Dec * T).
Variable argmax : T → tensor nat.
Variable random_stream : nat → Q.

Local Abbreviation Model := (HRED.t A PS ES).
Local Abbreviation sampled_step :=
  (BaseDecoder.sampled_step embedding_layer get_attention_output
     projection_layer layers dropouths nlayers emb_size argmax random_stream true).
Local Abbreviation sampled_loop :=
  (BaseDecoder.sampled_loop embedding_layer get_attention_output
     projection_layer layers dropouths nlayers emb_size argmax random_stream true).
Local Abbreviation sampled_forward :=
  (BaseDecoder.sampled_forward embedding_layer get_attention_output
     projection_layer layers dropouths nlayers emb_size argmax random_stream true).
Local Abbreviation Decoder_forward :=
  (BaseDecoder.forward embedding_layer get_attention_output
     projection_layer layers dropouths nlayers emb_size super_beam_forward
     argmax random_stream true).

Local Abbreviation chained := (BaseDecoder.chained argmax).
Local Abbreviation sampling_invariant :=
  (BaseDecoder.sampling_invariant (PS:=PS) argmax).

Lemma Qltb_nonneg_0 r : (0 <= r)%Q → Qltb r 0 = false.
Proof.
  unfold Qle, Qltb. simpl. intros Hr. apply Z.ltb_ge. lia.
Qed.

Lemma chained_snoc trace token logits :
  chained trace →
  (∀ x, last trace = Some x → token = argmax x.2) →
  chained (trace ++ [(token, logits)]).
Proof.
  intros Hc Hl t tok lg tok' lg' Ht HSt.
  apply lookup_lt_Some in HSt as Hlt. rewrite length_app in Hlt. simpl in Hlt.
  destruct (decide (S t < length trace)) as [Hin|Hout].
  - rewrite lookup_app_l in Ht, HSt by lia. by eapply Hc.
  - assert (S t = length trace) as Heq by lia.
    rewrite lookup_app_l in Ht by lia.
    rewrite lookup_app_r, <-Heq, Nat.sub_diag in HSt by lia.
    simpl in HSt. injection HSt as <- <-.
    apply (Hl (tok, lg)). rewrite last_lookup, <-Heq. done.
Qed.

Lemma sampled_step_invariant constraints acc acc' ground_truth :
  (∀ n, (0 <= random_stream n)%Q) →
  sampling_invariant acc →
  sampled_step constraints acc ground_truth = Some acc' →
  sampling_invariant acc'.
Proof.
  intros Hrand (Hp & Hprev & Hc). destruct acc as [[self previous] trace].
  simpl in *. unfold BaseDecoder.sampled_step.
  destruct previous as [prediction|].
  - unfold BaseDecoder.choose_input. rewrite Hp, Qltb_nonneg_0 by done. simpl.
    destruct (_train_forward _ prediction _ constraints) as [[self1 logits]|] eqn:Hf;
      simpl; [|done].
    apply _train_forward_frame in Hf as [_ Hpf]. simpl in Hpf.
    intros [= <-]. split; [simpl; congruence|]. split.
    + simpl. by rewrite last_snoc.
    + simpl. apply chained_snoc; [done|].
      intros x Hx. rewrite Hx in Hprev. simpl in Hprev. congruence.
  - destruct (_train_forward _ _ _ constraints) as [[self1 logits]|] eqn:Hf;
      simpl; [|done].
    apply _train_forward_frame in Hf as [_ Hpf].
    intros [= <-]. split; [simpl; congruence|]. split.
    + simpl. by rewrite last_snoc.
    + simpl. apply chained_snoc; [done|].
      intros x Hx. rewrite Hx in Hprev. done.
Qed.

Lemma sampled_loop_invariant constraints targets : ∀ acc acc',
  (∀ n, (0 <= random_stream n)%Q) →
  sampling_invariant acc →
  sampled_loop constraints acc targets = Some acc' →
  sampling_invariant acc'.
Proof.
  induction targets as [|ground_truth targets IH]; intros acc acc' Hrand Hinv H;
    cbn [BaseDecoder.sampled_loop] in H.
  - by simplify_eq.
  - destruct (sampled_step constraints acc ground_truth) as [acc1|] eqn:H1;
      simpl in H; [|done].
    eapply IH; [done| |done]. by eapply sampled_step_invariant.
Qed.

(** C2: in training mode with [pr_force = 0.0] the model hands
    [pr_force = 0] to its decoder and calls it with one beam, which is the
    sampled decoding; there, whatever non-negative numbers the random
    generator draws, the token embedded at every target step after the
    first is the highest-probability prediction from the logits of the
    step before, not the ground-truth token. *)
Theorem C2_pr_force_zero_feeds_own_prediction (self : Model)
    (decoder_inputs : tensor nat) (num_beams : nat)
    (state : list (hstate A)) (constraints : option T) :
  HRED.training self = true →
  HRED.pr_force self = 0%Q →
  (∀ n, (0 <= random_stream n)%Q) →
  let prepared :=
    HRED.decoding_call self decoder_inputs num_beams state constraints in
  let dec := HRED.decoder prepared.1 in
  dec_pr_force dec = 0%Q ∧
  HRED.call_num_beams prepared.2 = 1 ∧
  HRED.apply_call Decoder_forward dec prepared.2
    = sampled_forward dec decoder_inputs state constraints ∧
  ∀ targets dec' previous trace,
    sampled_loop constraints (set_hidden state dec, None, []) targets
      = Some (dec', previous, trace) →
    ∀ t token logits token' logits',
      trace !! t = Some (token, logits) →
      trace !! S t = Some (token', logits') →
      token' = argmax logits.
Proof.
  intros Ht Hp Hrand prepared dec. subst prepared dec.
  unfold HRED.decoding_call. rewrite Ht, Hp. simpl.
  split; [done|]. split; [done|]. split; [done|].
  intros targets dec' previous trace Hloop.
  apply sampled_loop_invariant in Hloop as (_ & _ & Hc).
  - exact Hc.
  - exact Hrand.
  - split; [done|]. split; [done|]. intros t ?????. done.
Qed.

End in_model.
End attention_decoder_properties.

(** ** The plain decoder in the model *)

Section plain_decoder_properties.
Context {A PS : Type}.
Local Abbreviation T := (tensor A).
Local Abbreviation Dec := (Decoder A PS).

Variable embedding_layer : nat → tensor nat → option T.
Variable projection_layer : T → option T.
Variable layers : list (T → hstate A → option (T * hstate A)).
Variable dropouths : list (nat → T → option T).
Variable nlayers : nat.
Variable generate :
  Dec → tensor nat → list (hstate A) → nat → option T → option (Dec * T).

Local Abbreviation rnn_layers := (PlainDecoder.rnn_layers (A:=A) nlayers).
Local Abbreviation _rnn_step :=
  (PlainDecoder._rnn_step (PS:=PS) layers dropouths nlayers).
Local Abbreviation train_step :=
  (PlainDecoder.train_step (PS:=PS) projection_layer layers dropouths nlayers).
Local Abbreviation train_loop :=
  (PlainDecoder.train_loop (PS:=PS) projection_layer layers dropouths nlayers).
Local Abbreviation _train_forward :=
  (PlainDecoder._train_forward (PS:=PS) embedding_layer projection_layer
     layers dropouths nlayers).
Local Abbreviation Decoder_forward :=
  (PlainDecoder.forward embedding_layer projection_layer layers dropouths
     nlayers generate).
Local Abbreviation fed_with :=
  (PlainDecoder.fed_with (PS:=PS) projection_layer layers dropouths nlayers).

(** *** The constraint vector *)

Lemma cat_last_shape3 (a b : T) bs la lb :
  shape a = [1; bs; la] → shape b = [1; bs; lb] →
  ∃ x, cat_last a b = Some x ∧ shape x = [1; bs; la + lb].
Proof.
  intros Ha Hb. unfold cat_last. rewrite Ha, Hb. cbn.
  case_decide; [|done]. eexists. split; done.
Qed.

Lemma train_step_fed c (self self' : Dec) trace trace' step :
  train_step (Some c) (self, trace) step = Some (self', trace') →
  ∃ entry, trace' = trace ++ [entry] ∧ fed_with c step entry.
Proof.
  unfold PlainDecoder.train_step. simpl. intros H.
  destruct (cat_last (unsqueeze0 step) c) as [x|] eqn:Hx; simpl in H; [|done].
  destruct (_rnn_step self x) as [[self1 r]|] eqn:Hr; simpl in H; [|done].
  destruct (projection_layer r) as [logits|] eqn:Hp; simpl in H; [|done].
  injection H as <- <-. exists (x, logits). split; [done|].
  split; [done|]. by exists self, self1, r.
Qed.

Lemma train_loop_fed c steps : ∀ (self self' : Dec) trace trace',
  train_loop (Some c) (self, trace) steps = Some (self', trace') →
  ∃ new, trace' = trace ++ new ∧ Forall2 (fed_with c) steps new.
Proof.
  induction steps as [|step steps IH]; intros self self' trace trace' H;
    cbn [PlainDecoder.train_loop] in H.
  - injection H as <- <-. exists []. split; [by rewrite app_nil_r|constructor].
  - destruct (train_step (Some c) (self, trace) step) as [[self1 trace1]|] eqn:H1;
      simpl in H; [|done].
    apply train_step_fed in H1 as (entry & -> & Hfed).
    apply IH in H as (new & -> & Hnew).
    exists (entry :: new). split; [by rewrite <-app_assoc|]. by constructor.
Qed.

Lemma train_forward_fed c (self self' : Dec) inputs hidden out :
  _train_forward self inputs hidden (Some c) = Some (self', out) →
  ∃ emb steps trace,
    embedding_layer (random_pos self) inputs = Some emb ∧
    iter0 emb = Some steps ∧
    Forall2 (fed_with c) steps trace ∧
    cat0 (trace.*2) = Some out.
Proof.
  unfold PlainDecoder._train_forward. intros H.
  destruct (embedding_layer _ inputs) as [emb|] eqn:He; simpl in H; [|done].
  destruct (iter0 emb) as [steps|] eqn:Hi; simpl in H; [|done].
  destruct (train_loop _ _ steps) as [[self1 trace]|] eqn:Hl; simpl in H; [|done].
  apply train_loop_fed in Hl as (new & -> & Hnew). simpl in H.
  destruct (cat0 _) as [outputs|] eqn:Hc; simpl in H; [|done].
  injection H as <- <-. by exists emb, steps, new.
Qed.

(** *** Shapes of a teacher-forced call *)

Section contracts.
Variables bs V emb_size ed out_size : nat.
Variable session_constraint : bool.
Variable valid : nat → hstate A → Prop.
Variable width : nat → nat.

Local Abbreviation state_ok := (PlainDecoder.state_ok nlayers valid).
Local Abbreviation constraints_fit :=
  (PlainDecoder.constraints_fit (A:=A) bs ed session_constraint).

(** What a valid configuration for batch size [bs] and vocabulary size
    [V] provides.  The recurrent stack was built by [HRED.__init__]:
    layer 0 for the input size [input_size_decoder], the final layer
    with the output size that the projection layer takes, one dropout
    per layer.  On tensors of the shapes they were built for, the
    collaborators return tensors of the documented shapes: the embedding
    adds an axis of width [emb_size], a layer keeps the leading axes and
    leaves a state that it accepts again, a dropout keeps the shape, and
    the projection maps the last axis to the vocabulary. *)
Hypothesis width_first :
  width 0 = HRED.input_size_decoder None emb_size ed session_constraint.
Hypothesis width_last : width nlayers = out_size.
Hypothesis layers_length : length layers = nlayers.
Hypothesis dropouths_length : length dropouths = nlayers.
Hypothesis embedding_contract : ∀ pos inputs sl,
  shape inputs = [sl; bs] →
  ∃ emb, embedding_layer pos inputs = Some emb ∧ shape emb = [sl; bs; emb_size].
Hypothesis layer_contract : ∀ i rnn x h,
  layers !! i = Some rnn → shape x = [1; bs; width i] → valid i h →
  ∃ y h', rnn x h = Some (y, h') ∧ shape y = [1; bs; width (S i)] ∧ valid i h'.
Hypothesis dropout_contract : ∀ i drop pos x,
  dropouths !! i = Some drop → ∃ y, drop pos x = Some y ∧ shape y = shape x.
Hypothesis projection_contract : ∀ x s,
  shape x = s ++ [out_size] →
  ∃ y, projection_layer x = Some y ∧ shape y = s ++ [V].

Lemma rnn_layers_returns ls : ∀ i pos x state nh,
  (∀ j, ls !! j = zip layers dropouths !! (i + j)) →
  i + length ls = nlayers →
  shape x = [1; bs; width i] →
  state_ok state →
  length nh = i → (∀ k h, nh !! k = Some h → valid k h) →
  ∃ pos' y nh',
    rnn_layers ls i pos x state nh = Some (pos', y, nh') ∧
    shape y = [1; bs; width nlayers] ∧
    state_ok nh'.
Proof.
  induction ls as [|[rnn drop] ls IH];
    intros i pos x state nh Hls Hi Hx [Hlen Hvalid] Hnh Hnhv.
  - simpl in *. do 3 eexists. split; [done|].
    replace nlayers with i by lia. split; [done|]. split; [lia|done].
  - simpl in Hi.
    pose proof (Hls 0) as H0. rewrite Nat.add_0_r in H0. simpl in H0.
    symmetry in H0.
    apply lookup_zip_with_Some in H0 as (r & d & [= <- <-] & Hl & Hd).
    destruct (lookup_lt_is_Some_2 state i) as [h Hh]; [lia|].
    destruct (layer_contract i rnn x h Hl Hx (Hvalid i h Hh))
      as (y & h' & Hr & Hy & Hv').
    cbn [PlainDecoder.rnn_layers]. rewrite Hh. simpl. rewrite Hr. simpl.
    assert (∀ j, ls !! j = zip layers dropouths !! (S i + j)) as Hls'.
    { intros j. replace (S i + j) with (i + S j) by lia. exact (Hls (S j)). }
    assert (∀ k h0, (nh ++ [h']) !! k = Some h0 → valid k h0) as Hnhv'.
    { intros k h0 [Hk|[Hge Hk]]%lookup_app_Some; [by apply Hnhv|].
      apply list_lookup_singleton_Some in Hk as [Hk <-].
      replace k with i by lia. done. }
    assert (length (nh ++ [h']) = S i) as Hnh'.
    { rewrite length_app. simpl. lia. }
    destruct (decide (S i = nlayers)) as [Hlast|Hmid]; simpl.
    + apply IH; [done|lia|done|done|done|done].
    + destruct (dropout_contract i drop pos y Hd) as (y1 & -> & Hy1). simpl.
      apply IH; [done|lia|congruence|done|done|done].
Qed.

Lemma rnn_step_returns (self : Dec) x :
  shape x = [1; bs; width 0] → state_ok (hidden self) →
  ∃ self' y,
    _rnn_step self x = Some (self', y) ∧
    shape y = [1; bs; out_size] ∧ state_ok (hidden self').
Proof.
  intros Hx Hok. unfold PlainDecoder._rnn_step.
  destruct (rnn_layers_returns (zip layers dropouths) 0 (random_pos self) x
              (hidden self) []) as (pos' & y & nh' & -> & Hy & Hok');
    [done|rewrite length_zip; lia|done|done|done|done|].
  simpl. do 2 eexists. split; [done|]. rewrite <-width_last. done.
Qed.

Lemma train_step_returns constraints (self : Dec) trace step :
  shape step = [bs; emb_size] → constraints_fit constraints →
  state_ok (hidden self) →
  ∃ self' x logits,
    train_step constraints (self, trace) step
      = Some (self', trace ++ [(x, logits)]) ∧
    shape logits = [1; bs; V] ∧ state_ok (hidden self').
Proof.
  intros Hstep Hfit Hok. unfold PlainDecoder.train_step.
  assert (∃ x, PlainDecoder.step_input constraints (unsqueeze0 step) = Some x ∧
               shape x = [1; bs; width 0]) as (x & -> & Hx).
  { rewrite width_first. unfold HRED.input_size_decoder. simpl.
    destruct constraints as [c|]; simpl in *.
    - destruct Hfit as [-> Hc]. apply cat_last_shape3; [|done].
      simpl. by rewrite Hstep.
    - rewrite Hfit. eexists. split; [done|]. simpl. by rewrite Hstep. }
  simpl. destruct (rnn_step_returns self x Hx Hok) as (self1 & y & -> & Hy & Hok1).
  simpl. destruct (projection_contract y [1; bs] Hy) as (logits & -> & Hl).
  simpl. by do 3 eexists.
Qed.

Lemma train_loop_returns constraints steps : ∀ (self : Dec) trace,
  Forall (λ x, shape x = [bs; emb_size]) steps →
  constraints_fit constraints → state_ok (hidden self) →
  Forall (λ e : T * T, shape e.2 = [1; bs; V]) trace →
  ∃ self' trace',
    train_loop constraints (self, trace) steps = Some (self', trace') ∧
    length trace' = length trace + length steps ∧
    Forall (λ e : T * T, shape e.2 = [1; bs; V]) trace'.
Proof.
  induction steps as [|step steps IH]; intros self trace Hsteps Hfit Hok Htrace.
  - do 2 eexists. split; [done|]. split; [simpl; lia|done].
  - apply Forall_cons in Hsteps as [Hstep Hsteps].
    cbn [PlainDecoder.train_loop].
    destruct (train_step_returns constraints self trace step Hstep Hfit Hok)
      as (self1 & x & logits & -> & Hl & Hok1).
    simpl.
    destruct (IH self1 (trace ++ [(x, logits)]) Hsteps Hfit Hok1)
      as (self' & trace' & -> & Hlen & Hall).
    { apply Forall_app. split; [done|]. by apply Forall_singleton. }
    do 2 eexists. split; [done|]. split; [|done].
    rewrite Hlen, length_app. simpl. lia.
Qed.

Lemma train_forward_returns (self : Dec) inputs state constraints sl :
  shape inputs = [sl; bs] → 0 < sl →
  state_ok state → constraints_fit constraints →
  ∃ self' outputs,
    _train_forward self inputs state constraints = Some (self', outputs) ∧
    shape outputs = [sl; bs; V].
Proof.
  intros Hin Hsl Hok Hfit. unfold PlainDecoder._train_forward.
  destruct (embedding_contract (random_pos self) inputs sl Hin) as (emb & -> & Hemb).
  simpl. destruct (iter0_shape _ _ _ Hemb) as (steps & -> & Hlen & Hsteps). simpl.
  destruct (train_loop_returns constraints steps
              (set_random_pos (S (random_pos self)) (set_hidden state self)) []
              Hsteps Hfit Hok) as (self' & trace & -> & Hlen' & Htrace); [done|].
  simpl.
  destruct (cat0_shape (trace.*2) [bs; V]) as (t & -> & Ht).
  { intros Hnil. apply fmap_nil_inv in Hnil. subst trace. simpl in *. lia. }
  { by apply Forall_fmap. }
  simpl. do 2 eexists. split; [done|].
  rewrite Ht, length_fmap, Hlen'. simpl. congruence.
Qed.

Context {ES : Type}.
Variable encoder_call : ES → tensor nat → option (ES * (list T * hstate A)).
Variable decoder_state_linear : T → T.
Variable encoder_init_state : nat → ES.
Variable decoder_init_hidden : nat → list (hstate A).

Lemma decoding_teacher_forced_returns (self : HRED.t A PS ES)
    (decoder_inputs : tensor nat) (state : list (hstate A))
    (constraints : option T) (T_len : nat) :
  shape decoder_inputs = [T_len; bs] →
  0 < T_len →
  HRED.training self = false ∨ Qltb (HRED.pr_force self) 1 = false →
  state_ok state → constraints_fit constraints →
  ∃ self' outputs_dec predictions,
    HRED.decoding (HRED.apply_call Decoder_forward)
      self decoder_inputs 0 state constraints
      = Some (self', (outputs_dec, HRED.Logits predictions)) ∧
    shape outputs_dec = [T_len; bs; V] ∧
    shape predictions = [T_len; bs; V].
Proof.
  intros Hin HT Hmode Hok Hfit. unfold HRED.decoding.
  assert (∃ self1, HRED.decoding_call self decoder_inputs 0 state constraints =
            (self1, HRED.mkCall decoder_inputs state 0 constraints))
    as [self1 ->].
  { unfold HRED.decoding_call. destruct (HRED.training self); [|by eexists].
    destruct Hmode as [?| ->]; [done|]. by eexists. }
  unfold HRED.apply_call, PlainDecoder.forward. simpl.
  destruct (train_forward_returns (HRED.decoder self1) decoder_inputs state
              constraints T_len Hin HT Hok Hfit) as (dec & out & -> & Hout).
  simpl. unfold size0. rewrite Hin. simpl.
  destruct (slice0_shape out T_len _ Hout) as (p & -> & Hp). simpl.
  do 3 eexists. split; done.
Qed.

End contracts.

(** *** The constraint vector in the model *)

Section constraint_in_model.
Context {ES : Type}.
Variable decoder_state_linear : T → T.

Local Abbreviation Model := (HRED.t A PS ES).
Local Abbreviation map_session :=
  (HRED.map_session_hidden_state_to_decoder_init_state (ES:=ES) decoder_state_linear).

End constraint_in_model.
End plain_decoder_properties.

(** ** The theorems at concrete inputs *)


(** The bridge on a decoder with two layers of state: layer 1 keeps its
    state [[5]]. *)
Lemma C7_witness :
  HRED.map_session_hidden_state_to_decoder_init_state Toy.decoder_state_linear
    Toy.model2 (HSingle Toy.summary)
  = Some (HRED.set_decoder
            (set_hidden [HSingle Toy.summary; HSingle (Tensor.mk [1; 1; 1] [5%Z])]
               Toy.decoder2) Toy.model2,
          ([HSingle Toy.summary; HSingle (Tensor.mk [1; 1; 1] [5%Z])],
           Some Toy.summary)) ∧
  [HSingle Toy.summary; HSingle (Tensor.mk [1; 1; 1] [5%Z])] !! 1
  = hidden (HRED.decoder Toy.model2) !! 1.
Proof.
  split; [reflexivity|].
  apply (C7_bridge_writes_only_layer_0 Toy.decoder_state_linear
           Toy.encoder_init_state Toy.init_hidden Toy.model2 _
           (HSingle Toy.summary) _ (Some Toy.summary) eq_refl).
  lia.
Defined.



(** Two beams on stored keys for two batch items: four batch items
    afterwards, items 2 and 3 being copies of items 0 and 1. *)
Lemma C6_witness :
  keys (set_keys (Some Toy.keys22) (Toy.decoder0 2)) = Some Toy.keys22 ∧
  wf Toy.keys22 ∧
  shape Toy.keys22 = [2; 2; 1] ∧
  0 < 2 ∧
  ∃ k',
    AttentionDecoder.ensure_keys (set_keys (Some Toy.keys22) (Toy.decoder0 2)) 2
      = Some (set_keys (Some k') (set_keys (Some Toy.keys22) (Toy.decoder0 2))) ∧
    shape k' = [2; 2 * 2; 1] ∧
    get3 k' 1 3 0 = get3 Toy.keys22 1 (3 mod 2) 0.
Proof.
  split; [reflexivity|]. split; [reflexivity|]. split; [reflexivity|].
  split; [lia|].
  destruct (C6_keys_replicated_once_on_beam_entry Toy.embedding_layer
              Toy.get_attention_output Toy.projection_layer (Toy.layers 2)
              Toy.dropouths Toy.nlayers Toy.emb_size Toy.super_beam_forward
              (set_keys (Some Toy.keys22) (Toy.decoder0 2)) Toy.keys22 2 2 1 2
              Toy.ones (Toy.init_hidden 2) None
              eq_refl eq_refl eq_refl ltac:(lia))
    as (k' & He & _ & Hs & _ & Hget & _).
  exists k'. split; [exact He|]. split; [exact Hs|].
  apply Hget; lia.
Defined.

(** The small model in training mode with [pr_force = 0.0] and a random
    generator that always draws 0.5, on three target steps with ground
    truth token 1: the decoding returns, and the tokens embedded at
    steps 1 and 2 are the predicted token 0. *)
Lemma C2_witness :
  HRED.training (HRED.set_pr_force 0 (Toy.model 1)) = true ∧
  HRED.pr_force (HRED.set_pr_force 0 (Toy.model 1)) = 0%Q ∧
  ∃ dec' previous trace,
    BaseDecoder.sampled_loop Toy.embedding_layer Toy.get_attention_output
      Toy.projection_layer (Toy.layers 1) Toy.dropouths Toy.nlayers Toy.emb_size
      Toy.argmax (λ _, 1 # 2)%Q true None
      (set_hidden (Toy.init_hidden 1)
         (set_dec_pr_force 0 (Toy.decoder0 1)), None, [])
      [Tensor.mk [1] [1]; Tensor.mk [1] [1]; Tensor.mk [1] [1]]
    = Some (dec', previous, trace) ∧
    trace.*1 = [Tensor.mk [1; 1] [1]; Tensor.mk [1; 1] [0]; Tensor.mk [1; 1] [0]] ∧
    ∀ t token logits token' logits',
      trace !! t = Some (token, logits) →
      trace !! S t = Some (token', logits') →
      token' = Toy.argmax logits.
Proof.
  split; [reflexivity|]. split; [reflexivity|].
  do 3 eexists. split; [vm_compute; reflexivity|]. split; [reflexivity|].
  refine (proj2 (proj2 (proj2
    (C2_pr_force_zero_feeds_own_prediction Toy.embedding_layer
       Toy.get_attention_output Toy.projection_layer (Toy.layers 1)
       Toy.dropouths Toy.nlayers Toy.emb_size Toy.super_beam_forward
       Toy.argmax (λ _, 1 # 2)%Q (HRED.set_pr_force 0 (Toy.model 1))
       Toy.ones 0 (Toy.init_hidden 1) None eq_refl eq_refl _)))
    [Tensor.mk [1] [1]; Tensor.mk [1] [1]; Tensor.mk [1] [1]] _ _ _ _).
  - intros n. unfold Qle. simpl. lia.
  - vm_compute. reflexivity.
Defined.



(** * Further properties of the two files *)

(** ** [_rnn_step] *)

Section rnn_step_properties.
Context {A PS : Type}.
Local Abbreviation T := (tensor A).
Local Abbreviation Dec := (Decoder A PS).

Variable layers : list (T → hstate A → T * hstate A).
Variable nlayers : nat.

Local Abbreviation rnn_step_loop := (AttentionDecoder.rnn_step_loop (A:=A) nlayers).

Lemma rnn_step_loop_lengths ls : ∀ i output hidden nh outs,
  i + length ls ≤ length hidden →
  ∃ nh' outs',
    rnn_step_loop ls i output hidden nh outs = Some (nh', outs') ∧
    length nh' = length nh + length ls ∧
    length outs' = length outs + length ls.
Proof.
  induction ls as [|[rnn drop] ls IH]; intros i output hidden nh outs Hlen; simpl in *.
  - do 2 eexists. split; [reflexivity|]. lia.
  - destruct (lookup_lt_is_Some_2 hidden i) as [h Hh]; [lia|].
    rewrite Hh. simpl. destruct (rnn output h) as [out new_h].
    edestruct IH as (nh' & outs' & -> & Hn & Ho); [|do 2 eexists; split; [done|]].
    + lia.
    + rewrite Hn, Ho, !length_app. simpl. lia.
Qed.

Lemma rnn_step_loop_short ls : ∀ i output hidden nh outs,
  ls ≠ [] → length hidden < i + length ls →
  rnn_step_loop ls i output hidden nh outs = None.
Proof.
  induction ls as [|[rnn drop] ls IH]; intros i output hidden nh outs Hne Hlen;
    [done|]. simpl in *.
  destruct (hidden !! i) as [h|] eqn:Hh; simpl; [|done].
  apply lookup_lt_Some in Hh.
  destruct (rnn output h) as [out new_h].
  apply IH; [|lia]. intros ->. simpl in *. lia.
Qed.

(** One recurrent step raises when the state list has fewer entries than
    there are (layer, dropout) pairs: [hidden[layer_index]] is then out
    of range. *)
Theorem rnn_step_raises_on_short_state (dropouths : list (T → T))
    (self : Dec) (output : T) (hidden : list (hstate A)) :
  length hidden < length layers `min` length dropouths →
  AttentionDecoder._rnn_step layers dropouths nlayers self output hidden = None.
Proof.
  unfold AttentionDecoder._rnn_step. rewrite <-(length_zip layers dropouths).
  intros Hshort. rewrite rnn_step_loop_short; [done| |simpl; lia].
  intros Hnil. rewrite Hnil in Hshort. simpl in Hshort. lia.
Qed.

Lemma rnn_step_Some_inv (dropouths : list (T → T))
    (self self' : Dec) (output : T) (state : list (hstate A)) (outputs : list T) :
  AttentionDecoder._rnn_step layers dropouths nlayers self output state
    = Some (self', outputs) →
  ∃ nh, self' = set_hidden nh self ∧
        length nh = length (zip layers dropouths) ∧
        length outputs = length (zip layers dropouths) ∧
        length (zip layers dropouths) ≤ length state.
Proof.
  unfold AttentionDecoder._rnn_step. intros Hs.
  destruct (decide (length state < length (zip layers dropouths))) as [Hlt|Hge].
  - rewrite rnn_step_loop_short in Hs; [done| |simpl; lia].
    intros Hnil. rewrite Hnil in Hlt. simpl in Hlt. lia.
  - destruct (rnn_step_loop_lengths (zip layers dropouths) 0 output state [] [])
      as (nh & outs & Hloop & Hn & Ho); [lia|].
    rewrite Hloop in Hs. simpl in Hs. injection Hs as <- <-.
    exists nh. simpl in *. split; [done|]. lia.
Qed.


Lemma rnn_step_loop_take ls : ∀ i output state nh outs,
  rnn_step_loop ls i output (take (i + length ls) state) nh outs
  = rnn_step_loop ls i output state nh outs.
Proof.
  induction ls as [|[rnn drop] ls IH]; intros i output state nh outs; [done|].
  simpl. rewrite lookup_take_lt by lia.
  destruct (state !! i) as [h|]; simpl; [|done].
  destruct (rnn output h) as [out new_h].
  replace (i + S (length ls)) with (S i + length ls) by lia. apply IH.
Qed.

(** A recurrent step reads one state per (layer, dropout) pair: entries
    of the state list beyond the stack are ignored. *)
Theorem rnn_step_ignores_extra_state (dropouths : list (T → T))
    (self : Dec) (output : T) (state : list (hstate A)) :
  AttentionDecoder._rnn_step layers dropouths nlayers self output
    (take (length layers `min` length dropouths) state)
  = AttentionDecoder._rnn_step layers dropouths nlayers self output state.
Proof.
  unfold AttentionDecoder._rnn_step. rewrite <-(length_zip layers dropouths).
  rewrite (rnn_step_loop_take (zip layers dropouths) 0). reflexivity.
Qed.

Lemma rnn_step_loop_last_dropout (d' : T → T) ls : ∀ ds i j output hidden nh outs,
  0 < nlayers → i + j = nlayers - 1 →
  rnn_step_loop (zip ls (<[j:=d']> ds)) i output hidden nh outs
  = rnn_step_loop (zip ls ds) i output hidden nh outs.
Proof.
  induction ls as [|rnn ls IH]; intros ds i j output hidden nh outs Hn Hij;
    [done|].
  destruct ds as [|d ds]; [done|].
  destruct j as [|j]; simpl.
  - destruct (hidden !! i) as [h|]; simpl; [|done].
    destruct (rnn output h) as [out new_h].
    destruct (decide (Z.of_nat i ≠ Z.of_nat nlayers - 1)%Z); [lia|reflexivity].
  - destruct (hidden !! i) as [h|]; simpl; [|done].
    destruct (rnn output h) as [out new_h].
    apply IH; lia.
Qed.

(** The dropout of the layer with index [nlayers - 1] is never applied:
    a recurrent step is the same whatever function stands at that place
    of [dropouths]. *)
Theorem rnn_step_skips_last_dropout (dropouths : list (T → T)) (d' : T → T)
    (self : Dec) (output : T) (hidden : list (hstate A)) :
  0 < nlayers →
  AttentionDecoder._rnn_step layers (<[nlayers - 1:=d']> dropouths) nlayers
    self output hidden
  = AttentionDecoder._rnn_step layers dropouths nlayers self output hidden.
Proof.
  intros Hn. unfold AttentionDecoder._rnn_step.
  rewrite (rnn_step_loop_last_dropout d' layers dropouths 0 (nlayers - 1))
    by (done || lia).
  reflexivity.
Qed.
End rnn_step_properties.

(** ** [_train_forward] *)

Section train_forward_properties.
Context {A PS : Type}.
Local Abbreviation T := (tensor A).
Local Abbreviation Dec := (Decoder A PS).

Variable embedding_layer : tensor nat → T.
Variable get_attention_output : option T → PS → T → PS * T.
Variable projection_layer : option T → PS → T → PS * T.
Variable layers : list (T → hstate A → T * hstate A).
Variable dropouths : list (T → T).
Variable nlayers : nat.
Variable emb_size : nat.

Local Abbreviation train_step :=
  (AttentionDecoder.train_step get_attention_output projection_layer
     layers dropouths nlayers emb_size).
Local Abbreviation train_loop :=
  (AttentionDecoder.train_loop get_attention_output projection_layer
     layers dropouths nlayers emb_size).
Local Abbreviation _train_forward :=
  (AttentionDecoder._train_forward embedding_layer get_attention_output
     projection_layer layers dropouths nlayers emb_size).

Local Abbreviation stepped := (AttentionDecoder.stepped (PS:=PS) layers dropouths).

Lemma stepped_trans state (self self1 self2 : Dec) :
  stepped state self self1 → stepped state self1 self2 → stepped state self self2.
Proof.
  intros (nh1 & a1 & -> & _ & _) (nh2 & a2 & -> & Hn & Hs).
  exists nh2, a2. split; [reflexivity|]. done.
Qed.

Lemma train_step_inv bs state (self self' : Dec) outs outs' step :
  train_step bs state (self, outs) step = Some (self', outs') →
  stepped state self self' ∧ ∃ y, outs' = outs ++ [y].
Proof.
  unfold AttentionDecoder.train_step, AttentionDecoder.step_input. intros H.
  destruct (get_attention_output (keys self) (attention self) step) as [ps att].
  simpl in H.
  destruct (cat_last step att) as [x|]; simpl in H; [|done].
  destruct (assert_dims _ _) as [x'|]; simpl in H; [|done].
  destruct (AttentionDecoder._rnn_step _ _ _ _ _ _) as [[self1 outputs]|] eqn:Hr;
    simpl in H; [|done].
  apply rnn_step_Some_inv in Hr as (nh & -> & Hn & _ & Hs).
  destruct (last outputs) as [o|]; simpl in H; [|done].
  destruct (assert_dims o _) as [o'|]; simpl in H; [|done].
  destruct (index0 0 o') as [o0|]; simpl in H; [|done].
  destruct (projection_layer _ _ o0) as [ps' logits]. injection H as <- <-.
  split; [|by eexists]. exists nh, ps'. done.
Qed.

Lemma train_loop_inv bs state steps : ∀ (self self' : Dec) outs outs',
  train_loop bs state (self, outs) steps = Some (self', outs') →
  length outs' = length outs + length steps ∧
  (steps = [] ∧ self' = self ∨ stepped state self self').
Proof.
  induction steps as [|step steps IH]; intros self self' outs outs' H;
    cbn [AttentionDecoder.train_loop] in H.
  - injection H as <- <-. split; [simpl; lia|]. by left.
  - destruct (train_step bs state (self, outs) step) as [[self1 outs1]|] eqn:H1;
      simpl in H; [|done].
    apply train_step_inv in H1 as [Hs1 [y ->]].
    apply IH in H as [Hlen Hrest]. split.
    + rewrite Hlen, length_app. simpl. lia.
    + right. destruct Hrest as [[_ ->]|Hs2]; [done|]. by eapply stepped_trans.
Qed.

Lemma train_forward_inv (self self' : Dec) inputs state constraints out :
  _train_forward self inputs state constraints = Some (self', out) →
  stepped state self self' ∧
  ∃ sl bs n s, shape inputs = [sl; bs] ∧
               shape (embedding_layer inputs) = S n :: s.
Proof.
  unfold AttentionDecoder._train_forward. intros H.
  destruct (shape inputs) as [|sl [|bs [|]]] eqn:Hin; try done.
  unfold iter0 in H.
  destruct (shape (embedding_layer inputs)) as [|n s] eqn:Hemb; simpl in H; [done|].
  destruct (train_loop _ _ _ _) as [[self1 outs]|] eqn:Hl; simpl in H; [|done].
  apply train_loop_inv in Hl as [Hlen Hst].
  rewrite length_fmap, length_seq in Hlen. simpl in Hlen.
  destruct (cat0 outs) as [t|] eqn:Hc; simpl in H; [|done].
  injection H as <- <-.
  destruct n as [|n].
  { apply nil_length_inv in Hlen. subst outs. done. }
  split; [|by do 4 eexists].
  destruct Hst as [[Hnil _]|Hst]; [done|done].
Qed.

(** A teacher-forced call that returns was given token ids of rank 2 and
    an embedding with at least one step: on an empty target sequence the
    call raises (there is nothing to concatenate). *)
Theorem train_forward_needs_a_step (self self' : Dec) (inputs : tensor nat)
    (state : list (hstate A)) (constraints : option T) (out : T) :
  _train_forward self inputs state constraints = Some (self', out) →
  ∃ sl bs n s, shape inputs = [sl; bs] ∧
               shape (embedding_layer inputs) = S n :: s.
Proof. intros [_ H]%train_forward_inv. exact H. Qed.

(** A teacher-forced call leaves the stored keys, [pr_force] and
    [beam_outputs] of the decoder as they were: what it assigns is the
    decoder's state list. *)
Theorem train_forward_frame (self self' : Dec) (inputs : tensor nat)
    (state : list (hstate A)) (constraints : option T) (out : T) :
  _train_forward self inputs state constraints = Some (self', out) →
  keys self' = keys self ∧
  dec_pr_force self' = dec_pr_force self ∧
  beam_outputs self' = beam_outputs self.
Proof.
  intros [(nh & a & -> & _) _]%train_forward_inv. done.
Qed.

(** A teacher-forced call that returns was given a state for every layer
    and leaves the decoder with exactly one state per (layer, dropout)
    pair; with a shorter state list the call raises. *)
Theorem train_forward_state_per_layer (self self' : Dec) (inputs : tensor nat)
    (state : list (hstate A)) (constraints : option T) (out : T) :
  _train_forward self inputs state constraints = Some (self', out) →
  length layers `min` length dropouths ≤ length state ∧
  length (hidden self') = length layers `min` length dropouths.
Proof.
  intros [(nh & a & -> & Hn & Hs) _]%train_forward_inv.
  rewrite length_zip in Hn, Hs. simpl. done.
Qed.
End train_forward_properties.

(** ** [_beam_forward] *)

Section beam_forward_properties.
Context {A PS : Type}.
Local Abbreviation T := (tensor A).
Local Abbreviation Dec := (Decoder A PS).

Variable super_beam_forward :
  Dec → tensor nat → list (hstate A) → nat → option (Dec * T).

Lemma join_blocks n (d : list A) l : ∀ a,
  mjoin ((λ i, take n (drop (i * n) d)) <$> seq a l)
  = take (l * n) (drop (a * n) d).
Proof.
  induction l as [|l IH]; intros a; simpl; [done|].
  rewrite IH. rewrite <-take_take_drop, drop_drop. do 3 f_equal. lia.
Qed.

Lemma tile_1 (d : list A) : tile 1 d = d.
Proof. simpl. apply app_nil_r. Qed.

Lemma repeat_axis1_one (k : T) l b d :
  wf k → shape k = [l; b; d] → repeat_axis1 1 k = Some k.
Proof.
  unfold wf. intros Hwf Hs. unfold repeat_axis1. rewrite Hs in *. f_equal.
  destruct k as [sh dat]. simpl in *. subst sh. f_equal.
  - by rewrite Nat.mul_1_r.
  - erewrite list_fmap_ext; [|intros ? i _; apply tile_1].
    unfold block. rewrite join_blocks. simpl. rewrite drop_0.
    apply take_ge. simpl. lia.
Qed.

(** With one beam the stored keys stay as they are: replicating
    well-formed rank-3 keys once along the batch axis gives the same
    tensor, and the search of the base class starts from the unchanged
    decoder. *)
Theorem beam_forward_one_beam_keeps_keys (self : Dec) (k : T) (l b d : nat)
    (inputs : tensor nat) (state : list (hstate A)) (constraints : option T) :
  keys self = Some k → wf k → shape k = [l; b; d] →
  AttentionDecoder.ensure_keys self 1 = Some self ∧
  AttentionDecoder._beam_forward super_beam_forward self inputs state 1 constraints
  = super_beam_forward self inputs state 1.
Proof.
  intros Hk Hwf Hs.
  assert (AttentionDecoder.ensure_keys self 1 = Some self) as He.
  { unfold AttentionDecoder.ensure_keys. rewrite Hk. simpl.
    rewrite (repeat_axis1_one k l b d) by done. simpl.
    destruct self. simpl in *. by subst. }
  split; [done|]. unfold AttentionDecoder._beam_forward. by rewrite He.
Qed.

Lemma mod_mod_mul j b K : (j mod (b * K)) mod b = j mod b.
Proof.
  rewrite Nat.Div0.mod_mul_r, (Nat.mul_comm b), Nat.Div0.mod_add.
  apply Nat.Div0.mod_mod.
Qed.

(** Nothing guards against entering the beam search twice on the same
    keys: keys already replicated for [K1] beams are replicated again
    for [K2] beams, so the batch axis becomes [b * K1 * K2], every batch
    item still being a copy of item [j mod b] of the original keys. *)
Theorem beam_forward_reentry_multiplies (self : Dec) (k : T)
    (l b d K1 K2 : nat) :
  keys self = Some k → wf k → shape k = [l; b; d] → 0 < K1 → 0 < K2 →
  ∃ self1 self2 k2,
    AttentionDecoder.ensure_keys self K1 = Some self1 ∧
    AttentionDecoder.ensure_keys self1 K2 = Some self2 ∧
    keys self2 = Some k2 ∧
    shape k2 = [l; b * K1 * K2; d] ∧
    ∀ i j c, i < l → j < b * K1 * K2 → c < d →
             get3 k2 i j c = get3 k i (j mod b) c.
Proof.
  intros Hk Hwf Hs HK1 HK2.
  destruct (repeat_axis1_spec k l b d K1 Hwf Hs) as (k1 & Hr1 & Hs1 & Hwf1 & Hg1).
  destruct (repeat_axis1_spec k1 l (b * K1) d K2 Hwf1 Hs1)
    as (k2 & Hr2 & Hs2 & Hwf2 & Hg2).
  exists (set_keys (Some k1) self), (set_keys (Some k2) self), k2.
  split.
  { unfold AttentionDecoder.ensure_keys. rewrite Hk, decide_True by done.
    by rewrite Hr1. }
  split.
  { unfold AttentionDecoder.ensure_keys. simpl. rewrite decide_True by done.
    by rewrite Hr2. }
  split; [done|]. split; [done|].
  intros i j c Hi Hj Hc. rewrite Hg2 by done.
  assert (0 < b * K1) as Hpos by nia.
  rewrite Hg1; [|done| |done].
  - by rewrite mod_mod_mul.
  - apply Nat.mod_upper_bound. lia.
Qed.
End beam_forward_properties.

(** ** The state bridge *)

Section bridge_properties.
Context {A PS ES : Type}.
Local Abbreviation T := (tensor A).
Local Abbreviation Dec := (Decoder A PS).
Local Abbreviation Model := (HRED.t A PS ES).

Variable decoder_state_linear : T → T.

Local Abbreviation map_session :=
  (HRED.map_session_hidden_state_to_decoder_init_state (ES:=ES) decoder_state_linear).

(** The bridge raises when the decoder holds an empty state list
    ([state[0]] is out of range), when a GRU model is given a (hidden,
    cell) pair, and when another model is given a summary without an
    item 0 or an item 1. *)
Theorem bridge_raises_on (self : Model) (last_output : hstate A) :
  hidden (HRED.decoder self) = [] ∨
  (HRED.cell_type self = "gru" ∧ ∃ h c, last_output = HPair h c) ∨
  (HRED.cell_type self ≠ "gru" ∧
   (HRED.item 0 last_output = None ∨ HRED.item 1 last_output = None)) →
  map_session self last_output = None.
Proof.
  unfold HRED.map_session_hidden_state_to_decoder_init_state.
  intros [Hnil|[(Hct & h & c & ->)|(Hct & Hitem)]].
  - rewrite Hnil. case_decide.
    + destruct (HRED.as_tensor last_output); reflexivity.
    + destruct (HRED.item 0 last_output); simpl; [|reflexivity].
      destruct (HRED.item 1 last_output); reflexivity.
  - rewrite decide_True by done. reflexivity.
  - rewrite decide_False by done.
    destruct Hitem as [-> | H1]; [reflexivity|].
    rewrite H1. destruct (HRED.item 0 last_output); reflexivity.
Qed.

(** The bridge returns a constraint vector exactly when the model was
    built with the session constraint. *)
Theorem bridge_constraints_iff_enabled (self self' : Model)
    (last_output : hstate A) (state : list (hstate A)) (constraints : option T) :
  map_session self last_output = Some (self', (state, constraints)) →
  is_Some constraints ↔ HRED.session_constraint self = true.
Proof.
  intros (v & x & _ & _ & _ & -> & _)%bridge_inv.
  destruct (HRED.session_constraint self).
  - split; [done|]. intros _. by eexists.
  - split; [|done]. intros [? ?]. done.
Qed.

(** Layer 0 of the returned state is the linear projection of the session
    summary: of the summary tensor for a GRU model, and of item 0 and
    item 1 separately, by the same linear layer, for the paired state of
    any other model. *)
Theorem bridge_layer_0_is_projection (self self' : Model)
    (last_output : hstate A) (state : list (hstate A)) (constraints : option T) :
  map_session self last_output = Some (self', (state, constraints)) →
  if decide (HRED.cell_type self = "gru")
  then ∃ x, last_output = HSingle x ∧
            state !! 0 = Some (HSingle (decoder_state_linear x))
  else ∃ h c, HRED.item 0 last_output = Some h ∧
              HRED.item 1 last_output = Some c ∧
              state !! 0 = Some (HPair (decoder_state_linear h)
                                       (decoder_state_linear c)).
Proof.
  intros (v & x & -> & Hlen & _ & _ & Hv)%bridge_inv.
  rewrite list_lookup_insert_eq by done.
  case_decide.
  - destruct Hv as [-> ->]. by exists x.
  - destruct Hv as (c & H0 & H1 & ->). by exists x, c.
Qed.

(** The bridge is idempotent: bridging the same summary again changes
    nothing and returns the same state and constraint vector. *)
Theorem bridge_idempotent (self self' : Model)
    (last_output : hstate A) (state : list (hstate A)) (constraints : option T) :
  map_session self last_output = Some (self', (state, constraints)) →
  map_session self' last_output = Some (self', (state, constraints)).
Proof.
  intros H. pose proof H as (v & x & -> & Hlen & -> & -> & Hv)%bridge_inv.
  unfold HRED.map_session_hidden_state_to_decoder_init_state in *. simpl.
  case_decide.
  - destruct Hv as [-> ->]. simpl in *.
    unfold HRED.setitem in *. rewrite length_insert.
    rewrite decide_True by done. simpl. rewrite list_insert_insert_eq.
    reflexivity.
  - destruct Hv as (c & -> & -> & ->). simpl in *.
    unfold HRED.setitem in *. rewrite length_insert.
    rewrite decide_True by done. simpl. rewrite list_insert_insert_eq.
    reflexivity.
Qed.

(** The bridge writes the decoder's state list and nothing else: the
    encoder, the mode, [pr_force], the configuration and the other
    attributes of the decoder are as before. *)
Theorem bridge_frame (self self' : Model)
    (last_output : hstate A) (state : list (hstate A)) (constraints : option T) :
  map_session self last_output = Some (self', (state, constraints)) →
  self' = HRED.set_decoder (set_hidden state (HRED.decoder self)) self.
Proof. intros (v & x & _ & _ & -> & _)%bridge_inv. reflexivity. Qed.
End bridge_properties.

(** ** [decoding] and [forward] *)

Section forward_properties.
Context {A PS ES : Type}.
Local Abbreviation T := (tensor A).
Local Abbreviation Dec := (Decoder A PS).
Local Abbreviation Model := (HRED.t A PS ES).

Variable encoder_call : ES → tensor nat → option (ES * (list T * hstate A)).
Variable decoder_call : Dec → HRED.DecoderCall A → option (Dec * T).
Variable decoder_state_linear : T → T.
Variable encoder_init_state : nat → ES.
Variable decoder_init_hidden : nat → list (hstate A).

Local Abbreviation map_session :=
  (HRED.map_session_hidden_state_to_decoder_init_state (ES:=ES) decoder_state_linear).
Local Abbreviation decoding := (HRED.decoding (ES:=ES) decoder_call).
Local Abbreviation reset_encoders :=
  (HRED.reset_encoders (A:=A) (PS:=PS) encoder_init_state decoder_init_hidden).
Local Abbreviation forward :=
  (HRED.forward encoder_call decoder_call decoder_state_linear
     encoder_init_state decoder_init_hidden).

Lemma decoding_inv (self self' : Model) di nb st c out pred :
  decoding self di nb st c = Some (self', (out, pred)) →
  ∃ dec',
    decoder_call (HRED.decoder (HRED.decoding_call self di nb st c).1)
                 (HRED.decoding_call self di nb st c).2 = Some (dec', out) ∧
    self' = HRED.set_decoder dec' self ∧
    if decide (nb = 0)
    then ∃ n p, size0 di = Some n ∧ slice0 n out = Some p ∧ pred = HRED.Logits p
    else pred = HRED.Beams (beam_outputs dec').
Proof.
  unfold HRED.decoding. intros H.
  destruct (HRED.decoding_call self di nb st c) as [self1 call] eqn:Hc.
  assert (∀ d, HRED.set_decoder d self1 = HRED.set_decoder d self) as Hset.
  { intros d. unfold HRED.decoding_call in Hc.
    destruct (HRED.training self); injection Hc as <- <-; reflexivity. }
  simpl. destruct (decoder_call (HRED.decoder self1) call) as [[dec' out']|];
    simpl in H; [|done].
  exists dec'. case_decide.
  - destruct (size0 di) as [n|]; simpl in H; [|done].
    destruct (slice0 n out') as [p|] eqn:Hp; simpl in H; [|done].
    injection H as <- <- <-. rewrite Hset. split; [done|]. split; [done|].
    by exists n, p.
  - injection H as <- <- <-. rewrite Hset. done.
Qed.

(** With [num_beams = 0] the predictions are the first steps of the
    decoder's output, clipped to the number of target steps: never more
    than the decoder inputs have, and fewer only if the decoder returned
    fewer. *)
Theorem decoding_clips_logits (self self' : Model) (decoder_inputs : tensor nat)
    (state : list (hstate A)) (constraints : option T)
    (outputs_dec : T) (pred : HRED.predictions A) :
  decoding self decoder_inputs 0 state constraints
    = Some (self', (outputs_dec, pred)) →
  ∃ p T_len rest n s,
    shape decoder_inputs = T_len :: rest ∧
    shape outputs_dec = n :: s ∧
    pred = HRED.Logits p ∧
    shape p = T_len `min` n :: s ∧
    data p = take ((T_len `min` n) * numel s) (data outputs_dec).
Proof.
  intros (dec' & _ & _ & Hp)%decoding_inv.
  rewrite decide_True in Hp by done. destruct Hp as (n & p & Hn & Hs & ->).
  unfold size0 in Hn. unfold slice0 in Hs.
  destruct (shape decoder_inputs) as [|T_len rest]; [done|].
  destruct (shape outputs_dec) as [|m s]; [done|].
  injection Hn as <-. injection Hs as <-.
  by exists (Tensor.mk (T_len `min` m :: s)
              (take ((T_len `min` m) * numel s) (data outputs_dec))), T_len, rest, m, s.
Qed.

(** In training mode with [pr_force >= 1] and [num_beams > 0] from the
    caller, the decoder is still run teacher-forced (0 beams), and the
    predictions returned are whatever its [beam_outputs] attribute holds
    after that call. *)
Theorem decoding_training_returns_beam_outputs (self : Model)
    (decoder_inputs : tensor nat) (num_beams : nat)
    (state : list (hstate A)) (constraints : option T) :
  HRED.training self = true →
  Qltb (HRED.pr_force self) 1 = false →
  num_beams ≠ 0 →
  decoding self decoder_inputs num_beams state constraints =
    '(dec', outputs_dec) ←
      decoder_call (set_dec_pr_force (HRED.pr_force self) (HRED.decoder self))
        (HRED.mkCall decoder_inputs state 0 constraints);
    Some (HRED.set_decoder dec' self,
          (outputs_dec, HRED.Beams (beam_outputs dec'))).
Proof.
  intros Ht Hp Hnb. unfold HRED.decoding.
  rewrite decoding_call_training by done. rewrite Hp. simpl.
  destruct (decoder_call _ _) as [[dec' out]|]; simpl; [|done].
  rewrite decide_False by done. reflexivity.
Qed.

Lemma forward_inv (self self' : Model) inputs nb pred outs :
  forward self inputs nb = Some (self', (pred, outs)) →
  ∃ e d nu sl bs enc outputs lo self2 state c out rest,
    inputs = [e; d] ∧ shape e = [nu; sl; bs] ∧
    encoder_call (encoder_init_state bs) e = Some (enc, (outputs, lo)) ∧
    map_session (HRED.set_encoder enc (reset_encoders self bs)) lo
      = Some (self2, (state, c)) ∧
    decoding self2 d nb state c = Some (self', (out, pred)) ∧
    iter0 out = Some rest ∧ outs = outputs ++ rest.
Proof.
  unfold HRED.forward. intros H.
  destruct inputs as [|e [|d [|]]]; try done.
  destruct (shape e) as [|nu [|sl [|bs [|]]]] eqn:He; try done.
  change (HRED.encoder (reset_encoders self bs)) with (encoder_init_state bs) in H.
  destruct (encoder_call _ e) as [[enc [outputs lo]]|] eqn:Henc; simpl in H; [|done].
  destruct (map_session _ lo) as [[self2 [state c]]|] eqn:Hm; simpl in H; [|done].
  destruct (decoding self2 d nb state c) as [[self3 [out pred']]|] eqn:Hd;
    simpl in H; [|done].
  destruct (iter0 out) as [rest|] eqn:Hi; simpl in H; [|done].
  injection H as <- <- <-.
  by exists e, d, nu, sl, bs, enc, outputs, lo, self2, state, c, out, rest.
Qed.

(** A call of [forward] that returns was given exactly two tensors, the
    first of rank 3; any other argument list raises. *)
Theorem forward_needs_two_inputs (self self' : Model)
    (inputs : list (tensor nat)) (num_beams : nat)
    (result : HRED.predictions A * list T) :
  forward self inputs num_beams = Some (self', result) →
  ∃ encoder_inputs decoder_inputs num_utterances max_sl bs,
    inputs = [encoder_inputs; decoder_inputs] ∧
    shape encoder_inputs = [num_utterances; max_sl; bs].
Proof.
  destruct result as [pred outs].
  intros (e & d & nu & sl & bs & ? & ? & ? & ? & ? & ? & ? & ? & -> & He & _)%forward_inv.
  by exists e, d, nu, sl, bs.
Qed.

(** [forward] writes the encoder and the decoder and nothing else of the
    model: the mode, [cell_type], [nt], [pr_force] and the flags are as
    before. *)
Theorem forward_frame (self self' : Model)
    (inputs : list (tensor nat)) (num_beams : nat)
    (result : HRED.predictions A * list T) :
  forward self inputs num_beams = Some (self', result) →
  self' = HRED.set_encoder (HRED.encoder self')
            (HRED.set_decoder (HRED.decoder self') self).
Proof.
  destruct result as [pred outs].
  intros (e & d & nu & sl & bs & enc & outputs & lo & self2 & state & c & out
          & rest & _ & _ & _ & Hm & Hd & _)%forward_inv.
  apply bridge_inv in Hm as (? & ? & _ & _ & -> & _).
  apply decoding_inv in Hd as (dec' & _ & -> & _). reflexivity.
Qed.

(** The list of intermediate outputs that [forward] returns starts with
    the encoder's outputs, followed by one slice per step of the
    decoder's output; the encoder state left in the model is the one the
    encoder returned. *)
Theorem forward_outputs_start_with_encoder (self self' : Model)
    (encoder_inputs decoder_inputs : tensor nat) (num_beams : nat)
    (pred : HRED.predictions A) (outs : list T) :
  forward self [encoder_inputs; decoder_inputs] num_beams
    = Some (self', (pred, outs)) →
  ∃ bs enc outputs last_output,
    last (shape encoder_inputs) = Some bs ∧
    encoder_call (HRED.encoder (reset_encoders self bs)) encoder_inputs
      = Some (enc, (outputs, last_output)) ∧
    HRED.encoder self' = enc ∧
    outputs `prefix_of` outs.
Proof.
  intros (e & d & nu & sl & bs & enc & outputs & lo & self2 & state & c & out
          & rest & [= <- <-] & He & Henc & Hm & Hd & _ & ->)%forward_inv.
  exists bs, enc, outputs, lo. split; [by rewrite He|]. split; [done|].
  split; [|by apply prefix_app_r].
  apply bridge_inv in Hm as (? & ? & _ & _ & -> & _).
  apply decoding_inv in Hd as (dec' & _ & -> & _). reflexivity.
Qed.

Lemma decoding_training_any_beams (self s1 s2 : Model) di nb1 nb2 st c o1 o2 p1 p2 :
  HRED.training self = true →
  decoding self di nb1 st c = Some (s1, (o1, p1)) →
  decoding self di nb2 st c = Some (s2, (o2, p2)) →
  s1 = s2 ∧ o1 = o2.
Proof.
  intros Ht (d1 & H1 & -> & _)%decoding_inv (d2 & H2 & -> & _)%decoding_inv.
  rewrite !decoding_call_training in H1, H2 by done. simpl in H1, H2.
  rewrite H1 in H2. injection H2 as <- <-. done.
Qed.

(** In training mode the caller's [num_beams] only selects which
    predictions are returned: two calls that differ in [num_beams] alone
    leave the model in the same state and return the same intermediate
    outputs. *)
Theorem forward_training_beams_select_predictions (self s1 s2 : Model)
    (inputs : list (tensor nat)) (nb1 nb2 : nat)
    (p1 p2 : HRED.predictions A) (o1 o2 : list T) :
  HRED.training self = true →
  forward self inputs nb1 = Some (s1, (p1, o1)) →
  forward self inputs nb2 = Some (s2, (p2, o2)) →
  s1 = s2 ∧ o1 = o2.
Proof.
  intros Ht
    (e & d & nu & sl & bs & enc & outputs & lo & self2 & state & c & out
     & rest & -> & He & Henc & Hm & Hd & Hi & ->)%forward_inv
    (e' & d' & nu' & sl' & bs' & enc' & outputs' & lo' & self2' & state' & c' & out'
     & rest' & [= <- <-] & He' & Henc' & Hm' & Hd' & Hi' & ->)%forward_inv.
  rewrite He in He'. injection He' as <- <- <-.
  rewrite Henc in Henc'. injection Henc' as <- <- <-.
  rewrite Hm in Hm'. injection Hm' as <- <- <-.
  apply map_session_pr_force in Hm as (_ & Ht2 & _).
  destruct (decoding_training_any_beams self2 s1 s2 d nb1 nb2 state c
              out out' p1 p2) as [-> ->]; [|done|done|].
  - by rewrite Ht2.
  - rewrite Hi in Hi'. injection Hi' as <-. done.
Qed.

Lemma bridge_set_pr_force p (self : Model) lo :
  map_session (HRED.set_pr_force p self) lo
  = (λ r, (HRED.set_pr_force p r.1, r.2)) <$> map_session self lo.
Proof.
  unfold HRED.map_session_hidden_state_to_decoder_init_state. simpl.
  case_decide.
  - destruct (HRED.as_tensor lo); simpl; [|done].
    destruct (HRED.setitem _ _ _); reflexivity.
  - destruct (HRED.item 0 lo); simpl; [|done].
    destruct (HRED.item 1 lo); simpl; [|done].
    destruct (HRED.setitem _ _ _); reflexivity.
Qed.

Lemma decoding_set_pr_force p (self : Model) di nb st c :
  HRED.training self = false →
  decoding (HRED.set_pr_force p self) di nb st c
  = (λ r, (HRED.set_pr_force p r.1, r.2)) <$> decoding self di nb st c.
Proof.
  intros Ht. unfold HRED.decoding, HRED.decoding_call. simpl. rewrite Ht.
  simpl. destruct (decoder_call _ _) as [[dec' out]|]; simpl; [|done].
  case_decide.
  - destruct (size0 di); simpl; [|done]. destruct (slice0 _ _); reflexivity.
  - reflexivity.
Qed.

(** In evaluation mode [pr_force] has no effect: a model with another
    [pr_force] returns the same predictions and outputs and is left in
    the same state, but for its own [pr_force]. *)
Theorem forward_eval_ignores_pr_force (p : Q) (self : Model)
    (inputs : list (tensor nat)) (num_beams : nat) :
  HRED.training self = false →
  forward (HRED.set_pr_force p self) inputs num_beams
  = (λ r, (HRED.set_pr_force p r.1, r.2)) <$> forward self inputs num_beams.
Proof.
  intros Ht. unfold HRED.forward.
  destruct inputs as [|e [|d [|]]]; try reflexivity.
  destruct (shape e) as [|nu [|sl [|bs [|]]]]; try reflexivity.
  change (HRED.encoder (reset_encoders (HRED.set_pr_force p self) bs))
    with (HRED.encoder (reset_encoders self bs)).
  destruct (encoder_call _ e) as [[enc [outputs lo]]|]; simpl; [|reflexivity].
  change (HRED.set_encoder enc (reset_encoders (HRED.set_pr_force p self) bs))
    with (HRED.set_pr_force p (HRED.set_encoder enc (reset_encoders self bs))).
  rewrite bridge_set_pr_force.
  destruct (map_session _ lo) as [[self2 [state c]]|] eqn:Hm; simpl; [|reflexivity].
  apply map_session_pr_force in Hm as (_ & Ht2 & _).
  rewrite decoding_set_pr_force by (rewrite Ht2; exact Ht).
  destruct (decoding self2 d num_beams state c) as [[self3 [out pred]]|];
    simpl; [|reflexivity].
  destruct (iter0 out); reflexivity.
Qed.
End forward_properties.

(** ** Construction *)

Section construction_properties.
Context {A PS ES : Type}.
Local Abbreviation T := (tensor A).
Local Abbreviation Dec := (Decoder A PS).
Local Abbreviation Model := (HRED.t A PS ES).

Variable HREDEncoder_new : HRED.Args → option ES.
Variable Decoder_new : HRED.Args → ES → option Dec.
Variable decoder_state_linear : T → T.

Local Abbreviation __init__ := (HRED.__init__ HREDEncoder_new Decoder_new).
Local Abbreviation map_session :=
  (HRED.map_session_hidden_state_to_decoder_init_state (ES:=ES) decoder_state_linear).

End construction_properties.

(** ** The further properties at concrete inputs *)

(** An empty state list for the one layer of the small model. *)
Lemma rnn_step_raises_on_short_state_witness :
  length ([] : list (hstate Z)) < length (Toy.layers 1) `min` length Toy.dropouths ∧
  AttentionDecoder._rnn_step (Toy.layers 1) Toy.dropouths Toy.nlayers
    (Toy.decoder0 1) (Tensor.mk [1; 1; 2] [1; 0]%Z) [] = None.
Proof.
  split; [simpl; lia|].
  apply (rnn_step_raises_on_short_state (Toy.layers 1) Toy.nlayers Toy.dropouths
           (Toy.decoder0 1) (Tensor.mk [1; 1; 2] [1; 0]%Z) []).
  simpl. lia.
Defined.

(** The small GRU model given a (hidden, cell) pair as session summary. *)
Lemma bridge_raises_on_witness :
  HRED.cell_type (Toy.model 1) = "gru" ∧
  HRED.map_session_hidden_state_to_decoder_init_state Toy.decoder_state_linear
    (Toy.model 1) (HPair Toy.summary Toy.summary) = None.
Proof.
  split; [reflexivity|].
  apply (bridge_raises_on Toy.decoder_state_linear (Toy.model 1)
           (HPair Toy.summary Toy.summary)).
  right. left. split; [reflexivity|]. by exists Toy.summary, Toy.summary.
Defined.



(** The only layer of the small model is the last one: a dropout that
    zeroes its input in its place changes nothing. *)
Lemma rnn_step_skips_last_dropout_witness :
  0 < Toy.nlayers ∧
  AttentionDecoder._rnn_step (Toy.layers 1) [Toy.zero_out] Toy.nlayers
    (Toy.decoder0 1) (Tensor.mk [1; 1; 2] [1; 0]%Z) (Toy.init_hidden 1)
  = AttentionDecoder._rnn_step (Toy.layers 1) Toy.dropouths Toy.nlayers
      (Toy.decoder0 1) (Tensor.mk [1; 1; 2] [1; 0]%Z) (Toy.init_hidden 1).
Proof.
  split; [unfold Toy.nlayers; lia|].
  apply (rnn_step_skips_last_dropout (Toy.layers 1) Toy.nlayers Toy.dropouths
           Toy.zero_out (Toy.decoder0 1)).
  unfold Toy.nlayers. lia.
Defined.

Lemma train_forward_needs_a_step_witness :
  ∃ self' out,
    Toy._train_forward 1 (Toy.decoder0 1) Toy.ones (Toy.init_hidden 1) None
      = Some (self', out) ∧
    ∃ sl bs n s, shape Toy.ones = [sl; bs] ∧
                 shape (Toy.embedding_layer Toy.ones) = S n :: s.
Proof.
  do 2 eexists. split; [vm_compute; reflexivity|].
  eapply (train_forward_needs_a_step Toy.embedding_layer Toy.get_attention_output
            Toy.projection_layer (Toy.layers 1) Toy.dropouths Toy.nlayers
            Toy.emb_size (Toy.decoder0 1) _ Toy.ones (Toy.init_hidden 1) None).
  vm_compute. reflexivity.
Defined.

(** The decoder that holds tokens of an earlier generation still holds
    them after a teacher-forced call. *)
Lemma train_forward_frame_witness :
  ∃ self' out,
    Toy._train_forward 1 Toy.decoder_with_beams Toy.ones (Toy.init_hidden 1) None
      = Some (self', out) ∧
    keys self' = None ∧
    dec_pr_force self' = 1%Q ∧
    beam_outputs self' = Some (Tensor.mk [2; 1] [1; 0]).
Proof.
  do 2 eexists. split; [vm_compute; reflexivity|].
  eapply (train_forward_frame Toy.embedding_layer Toy.get_attention_output
            Toy.projection_layer (Toy.layers 1) Toy.dropouths Toy.nlayers
            Toy.emb_size Toy.decoder_with_beams _ Toy.ones (Toy.init_hidden 1) None).
  vm_compute. reflexivity.
Defined.

(** A teacher-forced call with a state list of two entries for a stack of
    one layer leaves one state. *)
Lemma train_forward_state_per_layer_witness :
  ∃ self' out,
    Toy._train_forward 1 (Toy.decoder0 1) Toy.ones
      (Toy.init_hidden 1 ++ Toy.init_hidden 1) None = Some (self', out) ∧
    1 ≤ 2 ∧ length (hidden self') = 1.
Proof.
  do 2 eexists. split; [vm_compute; reflexivity|].
  eapply (train_forward_state_per_layer Toy.embedding_layer
            Toy.get_attention_output Toy.projection_layer (Toy.layers 1)
            Toy.dropouths Toy.nlayers Toy.emb_size (Toy.decoder0 1) _ Toy.ones
            (Toy.init_hidden 1 ++ Toy.init_hidden 1) None).
  vm_compute. reflexivity.
Defined.

Lemma beam_forward_one_beam_keeps_keys_witness :
  keys (set_keys (Some Toy.keys22) (Toy.decoder0 2)) = Some Toy.keys22 ∧
  wf Toy.keys22 ∧ shape Toy.keys22 = [2; 2; 1] ∧
  AttentionDecoder.ensure_keys (set_keys (Some Toy.keys22) (Toy.decoder0 2)) 1
  = Some (set_keys (Some Toy.keys22) (Toy.decoder0 2)).
Proof.
  split; [reflexivity|]. split; [reflexivity|]. split; [reflexivity|].
  apply (beam_forward_one_beam_keeps_keys Toy.super_beam_forward
           (set_keys (Some Toy.keys22) (Toy.decoder0 2)) Toy.keys22 2 2 1
           Toy.ones (Toy.init_hidden 2) None eq_refl eq_refl eq_refl).
Defined.

(** Two beams and then three on keys for two batch items: twelve batch
    items. *)
Lemma beam_forward_reentry_multiplies_witness :
  0 < 2 ∧ 0 < 3 ∧
  ∃ self1 self2 k2,
    AttentionDecoder.ensure_keys (set_keys (Some Toy.keys22) (Toy.decoder0 2)) 2
      = Some self1 ∧
    AttentionDecoder.ensure_keys self1 3 = Some self2 ∧
    keys self2 = Some k2 ∧
    shape k2 = [2; 2 * 2 * 3; 1].
Proof.
  split; [lia|]. split; [lia|].
  destruct (beam_forward_reentry_multiplies
              (set_keys (Some Toy.keys22) (Toy.decoder0 2)) Toy.keys22 2 2 1 2 3
              eq_refl eq_refl eq_refl ltac:(lia) ltac:(lia))
    as (self1 & self2 & k2 & H1 & H2 & Hk & Hs & _).
  exists self1, self2, k2. split; [exact H1|]. split; [exact H2|].
  split; [exact Hk|exact Hs].
Defined.

(** The bridge of the small GRU model, which has the session constraint
    enabled, on the summary [[7]]. *)
Lemma bridge_constraints_iff_enabled_witness :
  ∃ self' state constraints,
    HRED.map_session_hidden_state_to_decoder_init_state Toy.decoder_state_linear
      (Toy.model 1) (HSingle Toy.summary) = Some (self', (state, constraints)) ∧
    (is_Some constraints ↔ HRED.session_constraint (Toy.model 1) = true).
Proof.
  do 3 eexists. split; [vm_compute; reflexivity|].
  eapply (bridge_constraints_iff_enabled Toy.decoder_state_linear (Toy.model 1) _
            (HSingle Toy.summary)).
  vm_compute. reflexivity.
Defined.

Lemma bridge_layer_0_is_projection_witness :
  ∃ self' state constraints,
    HRED.map_session_hidden_state_to_decoder_init_state Toy.decoder_state_linear
      Toy.model2 (HSingle Toy.summary) = Some (self', (state, constraints)) ∧
    ∃ x, HSingle Toy.summary = HSingle x ∧
         state !! 0 = Some (HSingle (Toy.decoder_state_linear x)).
Proof.
  do 3 eexists. split; [vm_compute; reflexivity|].
  eapply (bridge_layer_0_is_projection Toy.decoder_state_linear Toy.model2 _
            (HSingle Toy.summary)).
  vm_compute. reflexivity.
Defined.

Lemma bridge_idempotent_witness :
  ∃ self' state constraints,
    HRED.map_session_hidden_state_to_decoder_init_state Toy.decoder_state_linear
      Toy.model2 (HSingle Toy.summary) = Some (self', (state, constraints)) ∧
    HRED.map_session_hidden_state_to_decoder_init_state Toy.decoder_state_linear
      self' (HSingle Toy.summary) = Some (self', (state, constraints)).
Proof.
  do 3 eexists. split; [vm_compute; reflexivity|].
  eapply (bridge_idempotent Toy.decoder_state_linear Toy.model2).
  vm_compute. reflexivity.
Defined.

Lemma bridge_frame_witness :
  ∃ self' state constraints,
    HRED.map_session_hidden_state_to_decoder_init_state Toy.decoder_state_linear
      Toy.model2 (HSingle Toy.summary) = Some (self', (state, constraints)) ∧
    self' = HRED.set_decoder (set_hidden state (HRED.decoder Toy.model2)) Toy.model2.
Proof.
  do 3 eexists. split; [vm_compute; reflexivity|].
  eapply (bridge_frame Toy.decoder_state_linear Toy.model2 _ (HSingle Toy.summary)).
  vm_compute. reflexivity.
Defined.

(** Three target steps in evaluation mode: three steps of logits. *)
Lemma decoding_clips_logits_witness :
  ∃ self' outputs_dec pred,
    Toy.decoding false (HRED.set_training false (Toy.model 1)) Toy.ones 0
      (Toy.init_hidden 1) None = Some (self', (outputs_dec, pred)) ∧
    ∃ p T_len rest n s,
      shape Toy.ones = T_len :: rest ∧
      shape outputs_dec = n :: s ∧
      pred = HRED.Logits p ∧
      shape p = T_len `min` n :: s ∧
      data p = take ((T_len `min` n) * numel s) (data outputs_dec).
Proof.
  do 3 eexists. split; [vm_compute; reflexivity|].
  eapply (decoding_clips_logits (Toy.decoder_call 1 false (λ _, 0%Q))
            (HRED.set_training false (Toy.model 1)) _ Toy.ones
            (Toy.init_hidden 1) None).
  vm_compute. reflexivity.
Defined.

(** A model in training mode with [pr_force = 1.0] whose decoder holds
    tokens of an earlier generation, called with three beams: the decoder
    runs teacher-forced and the old tokens come back as predictions. *)
Lemma decoding_training_returns_beam_outputs_witness :
  HRED.training (HRED.set_decoder Toy.decoder_with_beams (Toy.model 1)) = true ∧
  Qltb (HRED.pr_force (HRED.set_decoder Toy.decoder_with_beams (Toy.model 1))) 1
    = false ∧
  3 ≠ 0 ∧
  snd <$> (snd <$> Toy.decoding true
             (HRED.set_decoder Toy.decoder_with_beams (Toy.model 1))
             Toy.ones 3 (Toy.init_hidden 1) None)
  = Some (HRED.Beams (Some (Tensor.mk [2; 1] [1; 0]))).
Proof.
  split; [reflexivity|]. split; [reflexivity|]. split; [lia|].
  unfold Toy.decoding.
  rewrite (decoding_training_returns_beam_outputs
             (Toy.decoder_call 1 true (λ _, 0%Q))
             (HRED.set_decoder Toy.decoder_with_beams (Toy.model 1))
             Toy.ones 3 (Toy.init_hidden 1) None eq_refl eq_refl ltac:(lia)).
  vm_compute. reflexivity.
Defined.

Lemma forward_needs_two_inputs_witness :
  ∃ self' result,
    Toy.forward true (Toy.model 1) [Toy.utterance; Toy.ones] 0
      = Some (self', result) ∧
    ∃ encoder_inputs decoder_inputs num_utterances max_sl bs,
      [Toy.utterance; Toy.ones] = [encoder_inputs; decoder_inputs] ∧
      shape encoder_inputs = [num_utterances; max_sl; bs].
Proof.
  do 2 eexists. split; [vm_compute; reflexivity|].
  eapply (forward_needs_two_inputs Toy.encoder_call
            (Toy.decoder_call 1 true (λ _, 0%Q)) Toy.decoder_state_linear
            Toy.encoder_init_state Toy.init_hidden (Toy.model 1) _
            [Toy.utterance; Toy.ones] 0).
  vm_compute. reflexivity.
Defined.

Lemma forward_frame_witness :
  ∃ self' result,
    Toy.forward true (Toy.model 1) [Toy.utterance; Toy.ones] 0
      = Some (self', result) ∧
    self' = HRED.set_encoder (HRED.encoder self')
              (HRED.set_decoder (HRED.decoder self') (Toy.model 1)).
Proof.
  do 2 eexists. split; [vm_compute; reflexivity|].
  eapply (forward_frame Toy.encoder_call
            (Toy.decoder_call 1 true (λ _, 0%Q)) Toy.decoder_state_linear
            Toy.encoder_init_state Toy.init_hidden (Toy.model 1) _
            [Toy.utterance; Toy.ones] 0).
  vm_compute. reflexivity.
Defined.

Lemma forward_outputs_start_with_encoder_witness :
  ∃ self' pred outs,
    Toy.forward true (Toy.model 1) [Toy.utterance; Toy.ones] 0
      = Some (self', (pred, outs)) ∧
    ∃ bs enc outputs last_output,
      last (shape Toy.utterance) = Some bs ∧
      Toy.encoder_call
        (HRED.encoder
           (HRED.reset_encoders Toy.encoder_init_state Toy.init_hidden
              (Toy.model 1) bs)) Toy.utterance
        = Some (enc, (outputs, last_output)) ∧
      HRED.encoder self' = enc ∧
      outputs `prefix_of` outs.
Proof.
  do 3 eexists. split; [vm_compute; reflexivity|].
  eapply (forward_outputs_start_with_encoder Toy.encoder_call
            (Toy.decoder_call 1 true (λ _, 0%Q)) Toy.decoder_state_linear
            Toy.encoder_init_state Toy.init_hidden (Toy.model 1) _
            Toy.utterance Toy.ones 0).
  vm_compute. reflexivity.
Defined.

(** The small model in training mode, called with 0 and with 3 beams. *)
Lemma forward_training_beams_select_predictions_witness :
  HRED.training (Toy.model 1) = true ∧
  ∃ s1 p1 o1 s2 p2 o2,
    Toy.forward true (Toy.model 1) [Toy.utterance; Toy.ones] 0
      = Some (s1, (p1, o1)) ∧
    Toy.forward true (Toy.model 1) [Toy.utterance; Toy.ones] 3
      = Some (s2, (p2, o2)) ∧
    s1 = s2 ∧ o1 = o2.
Proof.
  split; [reflexivity|].
  do 6 eexists. split; [vm_compute; reflexivity|].
  split; [vm_compute; reflexivity|].
  eapply (forward_training_beams_select_predictions Toy.encoder_call
            (Toy.decoder_call 1 true (λ _, 0%Q)) Toy.decoder_state_linear
            Toy.encoder_init_state Toy.init_hidden (Toy.model 1) _ _
            [Toy.utterance; Toy.ones] 0 3 _ _ _ _ eq_refl).
  - vm_compute. reflexivity.
  - vm_compute. reflexivity.
Defined.

Lemma forward_eval_ignores_pr_force_witness :
  HRED.training (HRED.set_training false (Toy.model 1)) = false ∧
  Toy.forward false (HRED.set_pr_force 0 (HRED.set_training false (Toy.model 1)))
    [Toy.utterance; Toy.ones] 0
  = (λ r, (HRED.set_pr_force 0 r.1, r.2)) <$>
      Toy.forward false (HRED.set_training false (Toy.model 1))
        [Toy.utterance; Toy.ones] 0.
Proof.
  split; [reflexivity|].
  apply (forward_eval_ignores_pr_force Toy.encoder_call
           (Toy.decoder_call 1 false (λ _, 0%Q)) Toy.decoder_state_linear
           Toy.encoder_init_state Toy.init_hidden 0%Q
           (HRED.set_training false (Toy.model 1)) [Toy.utterance; Toy.ones] 0).
  reflexivity.
Defined.
